(** * Wealthsimple-API-Python: the [WS] client, embedded and verified

    Source: [src/wealthsimple/wealthsimple.py], one class [WS] wrapping a
    [requests] session.  Every method builds a URL, sends one HTTP request
    through the session, parses the JSON body and returns it or a list
    derived from it.

    The embedding is shallow.  Python values that travel through the client
    are JSON values; a raised exception is the [Err] branch of [result]; the
    client object and the requests it has put on the wire are threaded
    through a state-and-error monad [M].  The two libraries the client calls
    ([pyotp] and the transport under [requests]) are an environment [Env]
    the development is parametric in. *)

From Stdlib Require Import ZArith List Ascii String Bool Lia.
From stdpp Require Import base option list gmap strings pretty.

Local Open Scope string_scope.
Local Open Scope list_scope.

#[local] Set Warnings "-register-all".

(** ** Python values and exceptions *)

Module Py.

(** The exceptions that can leave a method of [WS].  [PyException] is the
    bare [Exception] class, the one [login] raises; [NameError] is what
    [get_account] and [get_account_history] raise; the others come from
    the interpreter ([KeyError], [TypeError]) or from the libraries
    ([JSONDecodeError] from [Response.json], [LibraryError] for whatever
    [pyotp] or the transport raise, named by its class). *)
Inductive exn : Type :=
| PyException (msg : string)
| NameError (msg : string)
| KeyError (key : string)
| TypeError
| JSONDecodeError
| LibraryError (cls : string).

Inductive result (A : Type) : Type :=
| Ok (a : A)
| Err (e : exn).
Arguments Ok {A} a.
Arguments Err {A} e.

(** What [json.loads] produces: [None], [bool], [int], [float], [str],
    [list], [dict].  A float is kept as the decimal literal of the JSON
    text, mantissa and power of ten; no claim computes with it.  A [dict]
    is its items in insertion order; lookup takes the first binding of a
    key. *)
Inductive json : Type :=
| JNull
| JBool (b : bool)
| JInt (z : Z)
| JFloat (mantissa exponent : Z)
| JStr (s : string)
| JArr (items : list json)
| JObj (fields : list (string * json)).

Fixpoint assoc (k : string) (fields : list (string * json)) : option json :=
  match fields with
  | [] => None
  | (k', v) :: rest => if String.eqb k' k then Some v else assoc k rest
  end.

(** [v[k]] for a [str] key [k]. *)
Definition getitem (v : json) (k : string) : result json :=
  match v with
  | JObj fields =>
      match assoc k fields with
      | Some x => Ok x
      | None => Err (KeyError k)
      end
  | _ => Err TypeError
  end.

(** [v == s] for a [str] [s]: only an equal [str] compares equal. *)
Definition eq_str (v : json) (s : string) : bool :=
  match v with
  | JStr t => String.eqb t s
  | _ => false
  end.

Fixpoint is_substring (needle hay : string) : bool :=
  String.prefix needle hay ||
  match hay with
  | EmptyString => false
  | String _ rest => is_substring needle rest
  end.

(** [k in v] for a [str] [k]: key membership in a [dict], element
    membership in a [list], substring test in a [str]; the other values
    are not iterable. *)
Definition contains (k : string) (v : json) : result bool :=
  match v with
  | JObj fields => Ok (bool_decide (is_Some (assoc k fields)))
  | JArr items => Ok (existsb (fun x => eq_str x k) items)
  | JStr s => Ok (is_substring k s)
  | _ => Err TypeError
  end.

Fixpoint chars (s : string) : list json :=
  match s with
  | EmptyString => []
  | String c rest => JStr (String c EmptyString) :: chars rest
  end.

(** [iter(v)], as a [for] loop or a comprehension walks it. *)
Definition iter (v : json) : result (list json) :=
  match v with
  | JArr items => Ok items
  | JObj fields => Ok (map (fun kv => JStr (fst kv)) fields)
  | JStr s => Ok (chars s)
  | _ => Err TypeError
  end.

(** Truth value of a [str], and of a [str] argument that defaults to
    [None]. *)
Definition truthy (s : string) : bool := negb (String.eqb s "").

Definition truthy_opt (o : option string) : bool :=
  match o with
  | Some s => truthy s
  | None => false
  end.

End Py.
Import Py.

(** ** The [requests] session *)

Module Http.

Definition ascii_lower (c : ascii) : ascii :=
  let n := nat_of_ascii c in
  if (65 <=? n)%nat && (n <=? 90)%nat then ascii_of_nat (n + 32) else c.

Fixpoint lower (s : string) : string :=
  match s with
  | EmptyString => EmptyString
  | String c rest => String (ascii_lower c) (lower rest)
  end.

(** [requests.structures.CaseInsensitiveDict]: a store from the lowered
    key to the key as last written and its value. *)
Abbreviation CIDict := (gmap string (string * string)).

Definition ci_get (k : string) (d : CIDict) : option string :=
  snd <$> d !! lower k.

(** [d[k]]; the [KeyError] carries the lowered key, as the lookup in the
    store raises it. *)
Definition ci_getitem (k : string) (d : CIDict) : result string :=
  match ci_get k d with
  | Some v => Ok v
  | None => Err (KeyError (lower k))
  end.

(** [d.update({k: v})]. *)
Definition ci_update (k v : string) (d : CIDict) : CIDict :=
  <[lower k := (k, v)]> d.

Inductive Method : Type := GET | POST | DELETE.

Record Request : Type := {
  meth : Method;
  url : string;
  req_headers : CIDict;
  req_json : option json
}.

(** A response as the client reads it: [status_code], [headers], and the
    outcome of [json()], which is [None] when the body is not JSON. *)
Record Response : Type := {
  status_code : Z;
  resp_headers : CIDict;
  body : option json
}.

Record Session : Type := { headers : CIDict }.

(** Headers of the request a session prepares: its own, and a
    [Content-Type] when a [json=] body is given and none is set. *)
Definition prepare_headers (d : CIDict) (js : option json) : CIDict :=
  match js, ci_get "Content-Type" d with
  | Some _, None => ci_update "Content-Type" "application/json" d
  | _, _ => d
  end.

End Http.
Import Http.

(** ** The client *)

(** What the client does not own: the one-time password [pyotp] computes
    from the secret at the moment of the call (or the exception it raises on
    a secret that is not base32), the transport, which answers a request
    given the requests this session sent before it (or raises, when the
    connection fails), and the two default headers of a fresh session whose
    values depend on the installed [requests]. *)
Record Env : Type := {
  totp_now : string -> result string;
  transport : list Request -> Request -> result Response;
  user_agent : string;
  accept_encoding : string
}.

(** The attributes of a [WS] object. *)
Record WS : Type := {
  baseURL : string;
  session : Session
}.

(** The object, and the requests its session has sent, oldest first. *)
Record World : Type := {
  self : WS;
  wire : list Request
}.

Definition M (A : Type) : Type := World -> result A * World.

Definition ret {A} (a : A) : M A := fun w => (Ok a, w).

Definition raise {A} (e : exn) : M A := fun w => (Err e, w).

Definition bind {A B} (c : M A) (k : A -> M B) : M B :=
  fun w =>
    match c w with
    | (Ok a, w') => k a w'
    | (Err e, w') => (Err e, w')
    end.

Definition lift {A} (r : result A) : M A := fun w => (r, w).

Notation "x <- c ;; k" := (bind c (fun x => k))
  (at level 100, c at next level, right associativity).

Fixpoint mapM {A B} (f : A -> result B) (l : list A) : result (list B) :=
  match l with
  | [] => Ok []
  | x :: rest =>
      match f x with
      | Ok y =>
          match mapM f rest with
          | Ok ys => Ok (y :: ys)
          | Err e => Err e
          end
      | Err e => Err e
      end
  end.

(** [r.json()]. *)
Definition json_of (r : Response) : result json :=
  match body r with
  | Some j => Ok j
  | None => Err JSONDecodeError
  end.

(** [requests.session()]. *)
Definition requests_session (env : Env) : Session :=
  {| headers :=
       ci_update "Connection" "keep-alive"
         (ci_update "Accept" "*/*"
            (ci_update "Accept-Encoding" (accept_encoding env)
               (ci_update "User-Agent" (user_agent env) ∅))) |}.

Section Client.

Variable env : Env.

(** [self.session.request(method, url, json=js)]: the request carries the
    session's headers as they are when it is sent. *)
Definition request (m : Method) (u : string) (js : option json) : M Response :=
  fun w =>
    let req := {| meth := m; url := u;
                  req_headers := prepare_headers (headers (session (self w))) js;
                  req_json := js |} in
    (transport env (wire w) req, {| self := self w; wire := wire w ++ [req] |}).

Definition get (path : string) : M Response :=
  fun w => request GET (baseURL (self w) +:+ path) None w.

Definition post (path : string) (js : json) : M Response :=
  fun w => request POST (baseURL (self w) +:+ path) (Some js) w.

Definition delete (path : string) : M Response :=
  fun w => request DELETE (baseURL (self w) +:+ path) None w.

(** [self.session.headers.update({k: v})]. *)
Definition headers_update (k v : string) : M unit :=
  fun w =>
    (Ok tt,
     {| self := {| baseURL := baseURL (self w);
                   session := {| headers := ci_update k v (headers (session (self w))) |} |};
        wire := wire w |}).

(** [self.session.headers.get(k)]. *)
Definition headers_get (k : string) : M (option string) :=
  fun w => (Ok (ci_get k (headers (session (self w)))), w).

Definition login (email password auth_secret_key : string) : M unit :=
  if negb (truthy email && truthy password && truthy auth_secret_key)
  then raise (PyException "Missing login credentials")
  else
    auth_token <- lift (totp_now env auth_secret_key) ;;
    let req_body := JObj [("email", JStr email); ("password", JStr password);
                          ("otp", JStr auth_token)] in
    res <- post "auth/login" req_body ;;
    if (status_code res =? 401)%Z
    then raise (PyException "Invalid login credentials")
    else
      token <- lift (ci_getitem "X-Access-Token" (resp_headers res)) ;;
      headers_update "Authorization" token.

(** The object as [__init__] has it before it logs in: the fixed base URL
    and a fresh session, which has sent nothing. *)
Definition new_object : World :=
  {| self := {| baseURL := "https://trade-service.wealthsimple.com/";
                session := requests_session env |};
     wire := [] |}.

(** [WS(email, password, auth_secret_key)]. *)
Definition __init__ (email password auth_secret_key : string) : result unit * World :=
  login email password auth_secret_key new_object.

Definition refresh_token : M json :=
  x_access_token <- headers_get "Authorization" ;;
  let req_body :=
    JObj [("refresh_token",
           match x_access_token with Some t => JStr t | None => JNull end)] in
  res <- post "auth/refresh" req_body ;;
  lift (json_of res).

Definition get_accounts : M json :=
  r <- get "account/list" ;;
  res <- lift (json_of r) ;;
  lift (getitem res "results").

Definition get_account_ids : M json :=
  user_accounts <- get_accounts ;;
  accounts <- lift (iter user_accounts) ;;
  ids <- lift (mapM (fun account => getitem account "id") accounts) ;;
  ret (JArr ids).

(** The loop of [get_account]: the first account whose [id] equals
    [account_id]; [NameError] when the list is exhausted. *)
Fixpoint find_account (account_id : string) (accounts : list json) : result json :=
  match accounts with
  | [] => Err (NameError (account_id +:+ " does not correspond to any account"))
  | account :: rest =>
      match getitem account "id" with
      | Ok i => if eq_str i account_id then Ok account else find_account account_id rest
      | Err e => Err e
      end
  end.

Definition get_account (account_id : string) : M json :=
  user_accounts <- get_accounts ;;
  accounts <- lift (iter user_accounts) ;;
  lift (find_account account_id accounts).

Definition get_account_history (account_id : string) (time : string) : M json :=
  r <- get ("account/history/" +:+ time +:+ "?account_id=" +:+ account_id) ;;
  res <- lift (json_of r) ;;
  has_error <- lift (contains "error" res) ;;
  if has_error
  then
    e <- lift (getitem res "error") ;;
    if eq_str e "Record not found"
    then raise (NameError (account_id +:+ " does not correspond to any account"))
    else lift (getitem res "results")
  else lift (getitem res "results").

(** The comprehension of [get_orders]. *)
Fixpoint filter_orders (symbol : string) (orders : list json) : result (list json) :=
  match orders with
  | [] => Ok []
  | order :: rest =>
      match getitem order "symbol" with
      | Ok s =>
          match filter_orders symbol rest with
          | Ok kept => Ok (if eq_str s symbol then order :: kept else kept)
          | Err e => Err e
          end
      | Err e => Err e
      end
  end.

Definition get_orders (symbol : option string) : M json :=
  r <- get "orders" ;;
  res <- lift (json_of r) ;;
  if truthy_opt symbol
  then
    results <- lift (getitem res "results") ;;
    orders <- lift (iter results) ;;
    kept <- lift (filter_orders (default "" symbol) orders) ;;
    ret (JArr kept)
  else lift (getitem res "results").

(** [purchase_value] is the [float] argument as the JSON number it is sent
    as. *)
Definition place_fractional_share_order
    (security_id account_id : string) (purchase_value : json) : M json :=
  let order_type := "buy_value" in
  let order_sub_type := "fractional" in
  let time_in_force := "day" in
  let req_body :=
    JObj [("security_id", JStr security_id);
          ("order_type", JStr order_type);
          ("order_sub_type", JStr order_sub_type);
          ("market_value", purchase_value);
          ("time_in_force", JStr time_in_force);
          ("account_id", JStr account_id)] in
  r <- post "orders" req_body ;;
  lift (json_of r).

Definition cancel_order (order_id : string) : M json :=
  r <- delete ("orders/" +:+ order_id) ;;
  lift (json_of r).

Definition get_security (security_id : string) : M json :=
  r <- get ("securities/" +:+ security_id) ;;
  lift (json_of r).

Definition get_security_from_ticker (symbol : string) : M json :=
  r <- get ("securities?query=" +:+ symbol) ;;
  res <- lift (json_of r) ;;
  lift (getitem res "results").

Definition get_positions (account_id : string) : M json :=
  r <- get ("account/positions?account_id=" +:+ account_id) ;;
  res <- lift (json_of r) ;;
  lift (getitem res "results").

(** The [account_id] argument of [get_activities]: its default, the empty
    list, or the id of an account as a [str].  [str_of_account] is what
    [format] substitutes for it. *)
Inductive ActivityAccount : Type :=
| AllAccounts
| Account (account_id : string).

Definition str_of_account (a : ActivityAccount) : string :=
  match a with
  | AllAccounts => "[]"
  | Account account_id => account_id
  end.

Definition get_activities
    (activity_type : option string) (limit : Z) (account_id : ActivityAccount) : M json :=
  r <- (if truthy_opt activity_type
        then get ("account/activities?limit=" +:+ pretty limit +:+
                  "&account_id" +:+ str_of_account account_id +:+
                  "&type=" +:+ default "" activity_type)
        else get ("account/activities?limit=" +:+ pretty limit +:+
                  "&account_id" +:+ str_of_account account_id)) ;;
  res <- lift (json_of r) ;;
  lift (getitem res "results").

Definition get_me : M json :=
  r <- get "me" ;;
  lift (json_of r).

Definition get_person : M json :=
  r <- get "person" ;;
  lift (json_of r).

Definition get_bank_accounts : M json :=
  r <- get "bank-accounts" ;;
  res <- lift (json_of r) ;;
  lift (getitem res "results").

Definition get_deposits : M json :=
  r <- get "deposits" ;;
  res <- lift (json_of r) ;;
  lift (getitem res "results").

Definition get_forex : M json :=
  r <- get "forex" ;;
  lift (json_of r).

(** A call of a public method of the object, with its arguments. *)
Inductive Call : Type :=
| Login (email password auth_secret_key : string)
| RefreshToken
| GetAccounts
| GetAccountIds
| GetAccount (account_id : string)
| GetAccountHistory (account_id time : string)
| GetOrders (symbol : option string)
| PlaceFractionalShareOrder (security_id account_id : string) (purchase_value : json)
| CancelOrder (order_id : string)
| GetSecurity (security_id : string)
| GetSecurityFromTicker (symbol : string)
| GetPositions (account_id : string)
| GetActivities (activity_type : option string) (limit : Z) (account_id : ActivityAccount)
| GetMe
| GetPerson
| GetBankAccounts
| GetDeposits
| GetForex.

(** What the call returns ([None] is [JNull]) or raises. *)
Definition call (c : Call) : M json :=
  match c with
  | Login email password auth_secret_key =>
      _ <- login email password auth_secret_key ;; ret JNull
  | RefreshToken => refresh_token
  | GetAccounts => get_accounts
  | GetAccountIds => get_account_ids
  | GetAccount account_id => get_account account_id
  | GetAccountHistory account_id time => get_account_history account_id time
  | GetOrders symbol => get_orders symbol
  | PlaceFractionalShareOrder security_id account_id purchase_value =>
      place_fractional_share_order security_id account_id purchase_value
  | CancelOrder order_id => cancel_order order_id
  | GetSecurity security_id => get_security security_id
  | GetSecurityFromTicker symbol => get_security_from_ticker symbol
  | GetPositions account_id => get_positions account_id
  | GetActivities activity_type limit account_id =>
      get_activities activity_type limit account_id
  | GetMe => get_me
  | GetPerson => get_person
  | GetBankAccounts => get_bank_accounts
  | GetDeposits => get_deposits
  | GetForex => get_forex
  end.

Definition is_login (c : Call) : bool :=
  match c with
  | Login _ _ _ => true
  | _ => false
  end.

(** A run of calls in order; an exception does not end the run, the caller
    may catch it and go on with the same object. *)
Fixpoint calls (cs : list Call) (w : World) : World :=
  match cs with
  | [] => w
  | c :: rest => calls rest (snd (call c w))
  end.

End Client.

(** ** Vocabulary of the specification *)

(** The error kinds of the specification, read off the exception raised:
    [login] raises the bare [Exception] for both of its failures, the two
    account lookups raise [NameError]; whatever else surfaces is not one of
    the two named kinds. *)
Inductive ErrorKind : Type :=
| AuthenticationError
| NotFoundError
| OtherError.

Definition kind_of (e : exn) : ErrorKind :=
  match e with
  | PyException _ => AuthenticationError
  | NameError _ => NotFoundError
  | _ => OtherError
  end.

(** The stored bearer token: the session's [Authorization] header. *)
Definition authorization (w : World) : option string :=
  ci_get "Authorization" (headers (session (self w))).

(** The request [login] posts. *)
Definition login_request (w : World) (email password otp : string) : Request :=
  {| meth := POST;
     url := baseURL (self w) +:+ "auth/login";
     req_headers :=
       prepare_headers (headers (session (self w)))
         (Some (JObj [("email", JStr email); ("password", JStr password);
                      ("otp", JStr otp)]));
     req_json := Some (JObj [("email", JStr email); ("password", JStr password);
                             ("otp", JStr otp)]) |}.

(** An account (an order) as the client reads it: a JSON object with an
    [id] (a [symbol]) field. *)
Definition has_field (k : string) (v : json) : Prop :=
  exists x, getitem v k = Ok x.

(** The field [k] of [v], for the values that have it. *)
Definition field (k : string) (v : json) : json :=
  match getitem v k with
  | Ok x => x
  | Err _ => JNull
  end.

(** Whether field [k] of [v] is the string [s]. *)
Definition field_is (k s : string) (v : json) : bool :=
  match getitem v k with
  | Ok x => eq_str x s
  | Err _ => false
  end.

(** The request a [GET] of [path] puts on the wire, and the world once a
    request is sent. *)
Definition get_request (w : World) (path : string) : Request :=
  {| meth := GET;
     url := baseURL (self w) +:+ path;
     req_headers := prepare_headers (headers (session (self w))) None;
     req_json := None |}.

Definition sent (w : World) (req : Request) : World :=
  {| self := self w; wire := wire w ++ [req] |}.

(** The message of the [NameError] of the two account lookups. *)
Definition no_such_account (account_id : string) : exn :=
  NameError (account_id +:+ " does not correspond to any account").

(** The request [refresh_token] posts: the stored token, [None] when there
    is none. *)
Definition refresh_request (w : World) : Request :=
  let req_body :=
    JObj [("refresh_token",
           match authorization w with Some t => JStr t | None => JNull end)] in
  {| meth := POST;
     url := baseURL (self w) +:+ "auth/refresh";
     req_headers := prepare_headers (headers (session (self w))) (Some req_body);
     req_json := Some req_body |}.

(** The object after [login] has stored [token]. *)
Definition with_token (token : string) (o : WS) : WS :=
  {| baseURL := baseURL o;
     session := {| headers := ci_update "Authorization" token (headers (session o)) |} |}.

(** A computation that leaves the object and the wire as they are. *)
Definition quiet {A} (c : M A) : Prop := forall w, snd (c w) = w.

(** A computation that sends exactly one request, with the headers the
    session holds when it starts, and leaves the object as it is. *)
Definition sends_one {A} (c : M A) : Prop :=
  forall w, exists req,
    snd (c w) = {| self := self w; wire := wire w ++ [req] |} /\
    req_headers req = prepare_headers (headers (session (self w))) (req_json req).

(** The six periods [get_account_history] documents. *)
Definition periods : list string := ["1d"; "1w"; "1m"; "3m"; "1y"; "all"].

(** ** Fixtures *)

Module Fixture.

Definition base : string := "https://trade-service.wealthsimple.com/".

Definition reply (status : Z) (hs : CIDict) (b : option json) : Response :=
  {| status_code := status; resp_headers := hs; body := b |}.

Definition account (id kind : string) : json :=
  JObj [("object", JStr "account"); ("id", JStr id); ("account_type", JStr kind)].

Definition accounts : list json :=
  [account "tfsa-1" "ca_tfsa"; account "rrsp-2" "ca_rrsp"; account "non-reg-3" "ca_non_registered"].

Definition order (id symbol : string) : json :=
  JObj [("order_id", JStr id); ("symbol", JStr symbol); ("quantity", JInt 1)].

Definition orders : list json :=
  [order "order-1" "AC"; order "order-2" "SHOP"; order "order-3" "AC"].

(** A service that answers the login with [login_reply] and a [GET] of
    [base ++ path] with the body [table] has for [path], whatever was sent
    before. *)
Definition service (login_reply : Response) (table : list (string * json))
    (_ : list Request) (req : Request) : result Response :=
  if String.eqb (url req) (base +:+ "auth/login") then Ok login_reply
  else
    match List.find (fun entry => String.eqb (url req) (base +:+ fst entry)) table with
    | Some entry => Ok (reply 200 ∅ (Some (snd entry)))
    | None => Ok (reply 404 ∅ (Some (JObj [("error", JStr "Not found")])))
    end.

Definition env (login_reply : Response) (table : list (string * json)) : Env :=
  {| totp_now := fun _ => Ok "492039";
     transport := service login_reply table;
     user_agent := "python-requests/2.31.0";
     accept_encoding := "gzip, deflate" |}.

Definition accepted : Response :=
  reply 200 (ci_update "X-Access-Token" "token-1" ∅) (Some (JObj [])).

Definition unauthorized : Response :=
  reply 401 ∅ (Some (JObj [("error", JStr "Not authorized")])).

(** A reply that is not 401 and has no access-token header. *)
Definition unavailable : Response :=
  reply 503 ∅ (Some (JObj [("error", JStr "Service unavailable")])).

(** Orders one of which has the empty symbol. *)
Definition orders_blank : list json :=
  [order "order-1" "AC"; order "order-2" ""; order "order-3" "SHOP"].

Definition table_with (orders : list json) : list (string * json) :=
  [("account/list", JObj [("results", JArr accounts)]);
   ("orders", JObj [("results", JArr orders)]);
   ("account/history/3m?account_id=tfsa-1",
    JObj [("results", JArr [JObj [("date", JStr "2021-01-04")]])]);
   ("account/history/3m?account_id=nobody",
    JObj [("error", JStr "Record not found")]);
   ("account/history/all?account_id=odd",
    JObj [("error", JStr "Record not found"); ("results", JArr [])])].

Definition table : list (string * json) := table_with orders.

Definition world : World := snd (__init__ (env accepted table) "me@example.com" "hunter2" "JBSWY3DPEHPK3PXP").

End Fixture.

(** ** The endpoints, method by method *)

Definition post_request (w : World) (path : string) (js : json) : Request :=
  {| meth := POST;
     url := baseURL (self w) +:+ path;
     req_headers := prepare_headers (headers (session (self w))) (Some js);
     req_json := Some js |}.

Definition delete_request (w : World) (path : string) : Request :=
  {| meth := DELETE;
     url := baseURL (self w) +:+ path;
     req_headers := prepare_headers (headers (session (self w))) None;
     req_json := None |}.

(** The body of the order [place_fractional_share_order] posts. *)
Definition order_body (security_id account_id : string) (purchase_value : json) : json :=
  JObj [("security_id", JStr security_id);
        ("order_type", JStr "buy_value");
        ("order_sub_type", JStr "fractional");
        ("market_value", purchase_value);
        ("time_in_force", JStr "day");
        ("account_id", JStr account_id)].

(** The request a call of a method puts on the wire.  [login] has none of
    its own here: whether it sends one depends on its arguments and on the
    one-time password. *)
Definition endpoint_request (c : Call) (w : World) : option Request :=
  match c with
  | Login _ _ _ => None
  | RefreshToken => Some (refresh_request w)
  | GetAccounts | GetAccountIds | GetAccount _ =>
      Some (get_request w "account/list")
  | GetAccountHistory account_id time =>
      Some (get_request w ("account/history/" +:+ time +:+ "?account_id=" +:+ account_id))
  | GetOrders _ => Some (get_request w "orders")
  | PlaceFractionalShareOrder security_id account_id purchase_value =>
      Some (post_request w "orders" (order_body security_id account_id purchase_value))
  | CancelOrder order_id => Some (delete_request w ("orders/" +:+ order_id))
  | GetSecurity security_id => Some (get_request w ("securities/" +:+ security_id))
  | GetSecurityFromTicker symbol => Some (get_request w ("securities?query=" +:+ symbol))
  | GetPositions account_id =>
      Some (get_request w ("account/positions?account_id=" +:+ account_id))
  | GetActivities activity_type limit account_id =>
      Some (get_request w
              (if truthy_opt activity_type
               then "account/activities?limit=" +:+ pretty limit +:+
                    "&account_id" +:+ str_of_account account_id +:+
                    "&type=" +:+ default "" activity_type
               else "account/activities?limit=" +:+ pretty limit +:+
                    "&account_id" +:+ str_of_account account_id))
  | GetMe => Some (get_request w "me")
  | GetPerson => Some (get_request w "person")
  | GetBankAccounts => Some (get_request w "bank-accounts")
  | GetDeposits => Some (get_request w "deposits")
  | GetForex => Some (get_request w "forex")
  end.

(** The methods that return the JSON of the reply as it is. *)
Definition returns_raw (c : Call) : bool :=
  match c with
  | RefreshToken | PlaceFractionalShareOrder _ _ _ | CancelOrder _
  | GetSecurity _ | GetMe | GetPerson | GetForex => true
  | _ => false
  end.

(** The methods that return the [results] field of the reply and do
    nothing else with it. *)
Definition unwraps_results (c : Call) : bool :=
  match c with
  | GetAccounts | GetSecurityFromTicker _ | GetPositions _
  | GetActivities _ _ _ | GetBankAccounts | GetDeposits => true
  | GetOrders symbol => negb (truthy_opt symbol)
  | _ => false
  end.

(** A request addressed under the base URL of the object. *)
Definition under_base (w : World) (req : Request) : Prop :=
  String.prefix (baseURL (self w)) (url req) = true.

(** ** Replies that go wrong *)

Module Cases.

(** A service out of reach: the transport raises. *)
Definition down : Env :=
  {| totp_now := fun _ => Ok "492039";
     transport := fun _ _ => Err (LibraryError "ConnectionError");
     user_agent := "python-requests/2.31.0";
     accept_encoding := "gzip, deflate" |}.

(** A secret [pyotp] cannot decode. *)
Definition bad_secret : Env :=
  {| totp_now := fun _ => Err (LibraryError "binascii.Error");
     transport := Fixture.service Fixture.accepted Fixture.table;
     user_agent := "python-requests/2.31.0";
     accept_encoding := "gzip, deflate" |}.

(** A service that answers every request with [r]. *)
Definition always (r : Response) : Env :=
  {| totp_now := fun _ => Ok "492039";
     transport := fun _ _ => Ok r;
     user_agent := "python-requests/2.31.0";
     accept_encoding := "gzip, deflate" |}.

(** A gateway page, not JSON. *)
Definition gateway : Response := Fixture.reply 502 ∅ None.

Definition expired : json := JObj [("error", JStr "Not authorized")].

(** Accounts, the second of which has no [id]. *)
Definition ragged_accounts : list json :=
  [Fixture.account "tfsa-1" "ca_tfsa";
   JObj [("object", JStr "account")];
   Fixture.account "non-reg-3" "ca_non_registered"].

(** Orders, the second of which has no [symbol]. *)
Definition ragged_orders : list json :=
  [Fixture.order "order-1" "AC";
   JObj [("order_id", JStr "order-2")];
   Fixture.order "order-3" "AC"].

Definition results_of (items : list json) : Response :=
  Fixture.reply 200 ∅ (Some (JObj [("results", JArr items)])).

End Cases.

(** ** Effects of the primitives *)

Lemma lower_Authorization_ne_Content_Type :
  lower "Content-Type" <> lower "Authorization".
Proof. discriminate. Qed.

Lemma ci_get_update_same k v d : ci_get k (ci_update k v d) = Some v.
Proof. unfold ci_get, ci_update. by rewrite lookup_insert_eq. Qed.

Lemma ci_get_update_other k k' v d :
  lower k' <> lower k -> ci_get k (ci_update k' v d) = ci_get k d.
Proof. intros H. unfold ci_get, ci_update. by rewrite lookup_insert_ne. Qed.

(** Preparing a request never touches the bearer token it carries. *)
Lemma prepare_headers_Authorization d js :
  ci_get "Authorization" (prepare_headers d js) = ci_get "Authorization" d.
Proof.
  unfold prepare_headers.
  destruct js as [j|]; [|done].
  destruct (ci_get "Content-Type" d); [done|].
  apply ci_get_update_other, lower_Authorization_ne_Content_Type.
Qed.

Lemma fresh_session_unauthorized env :
  ci_get "Authorization" (headers (requests_session env)) = None.
Proof.
  unfold requests_session; simpl.
  rewrite !ci_get_update_other by discriminate.
  reflexivity.
Qed.

Lemma truthy_true s : truthy s = true <-> s <> "".
Proof.
  unfold truthy. destruct (String.eqb_spec s ""); simpl; split; congruence.
Qed.

Lemma missing_credential email password auth_secret_key :
  email = "" \/ password = "" \/ auth_secret_key = "" ->
  negb (truthy email && truthy password && truthy auth_secret_key) = true.
Proof.
  intros [-> | [-> | ->]]; simpl;
    rewrite ?andb_false_r; reflexivity.
Qed.

(** *** C1 *)

(** C1. Constructing the client with an empty [email], [password] or
    [auth_secret_key] fails with the exception of the missing credentials,
    an [AuthenticationError], and the session has sent no request: the wire
    of the object is empty, no login [POST] went out. *)
Theorem empty_credential_fails_before_any_request
    (env : Env) (email password auth_secret_key : string) :
  email = "" \/ password = "" \/ auth_secret_key = "" ->
  fst (__init__ env email password auth_secret_key)
    = Err (PyException "Missing login credentials") /\
  kind_of (PyException "Missing login credentials") = AuthenticationError /\
  wire (snd (__init__ env email password auth_secret_key)) = [].
Proof.
  intros H. unfold __init__, login.
  rewrite (missing_credential _ _ _ H). by cbn.
Qed.

Lemma empty_credential_fails_before_any_request_witness :
  ("me@example.com" = "" \/ "" = "" \/ "JBSWY3DPEHPK3PXP" = "") /\
  fst (__init__ (Fixture.env Fixture.accepted Fixture.table)
         "me@example.com" "" "JBSWY3DPEHPK3PXP")
    = Err (PyException "Missing login credentials") /\
  wire (snd (__init__ (Fixture.env Fixture.accepted Fixture.table)
               "me@example.com" "" "JBSWY3DPEHPK3PXP")) = [].
Proof.
  assert (H : "me@example.com" = "" \/ "" = "" \/ "JBSWY3DPEHPK3PXP" = "")
    by (right; left; reflexivity).
  split; [exact H|].
  destruct (empty_credential_fails_before_any_request
              (Fixture.env Fixture.accepted Fixture.table)
              "me@example.com" "" "JBSWY3DPEHPK3PXP" H) as (Hr & _ & Hw).
  split; [exact Hr | exact Hw].
Defined.

(** *** One request per method *)

Lemma quiet_ret {A} (a : A) : quiet (ret a).
Proof. by intros w. Qed.

Lemma quiet_raise {A} (e : exn) : quiet (@raise A e).
Proof. by intros w. Qed.

Lemma quiet_lift {A} (r : result A) : quiet (lift r).
Proof. by intros w. Qed.

Lemma quiet_bind {A B} (c : M A) (k : A -> M B) :
  quiet c -> (forall a, quiet (k a)) -> quiet (bind c k).
Proof.
  intros Hc Hk w. unfold bind. specialize (Hc w).
  destruct (c w) as [[a|e] w1]; simpl in *; subst; [apply Hk | done].
Qed.

Lemma quiet_headers_get k : quiet (headers_get k).
Proof. by intros w. Qed.

Lemma sends_one_request env m u js : sends_one (request env m u js).
Proof. intros w. eexists. split; reflexivity. Qed.

Lemma sends_one_get env path : sends_one (get env path).
Proof. intros w. apply sends_one_request. Qed.

Lemma sends_one_post env path js : sends_one (post env path js).
Proof. intros w. apply sends_one_request. Qed.

Lemma sends_one_delete env path : sends_one (delete env path).
Proof. intros w. apply sends_one_request. Qed.

Lemma sends_one_bind {A B} (c : M A) (k : A -> M B) :
  sends_one c -> (forall a, quiet (k a)) -> sends_one (bind c k).
Proof.
  intros Hc Hk w. unfold bind. destruct (Hc w) as (req & Hw & Hh).
  exists req. split; [|done].
  destruct (c w) as [[a|e] w1]; simpl in *; subst; [apply Hk | done].
Qed.

Ltac quiet :=
  repeat first
    [ apply quiet_ret | apply quiet_raise | apply quiet_lift
    | apply quiet_headers_get
    | apply quiet_bind; [|intros ?]
    | match goal with
      | |- quiet (if ?b then _ else _) => destruct b
      | |- quiet (match ?x with _ => _ end) => destruct x
      end ].

Ltac sends_one :=
  apply sends_one_bind;
  [ first [apply sends_one_get | apply sends_one_post | apply sends_one_delete]
  | intros ?; quiet ].

Lemma bind_headers_get {B} k (f : option string -> M B) w :
  bind (headers_get k) f w = f (ci_get k (headers (session (self w)))) w.
Proof. reflexivity. Qed.

Lemma sends_one_refresh_token env : sends_one (refresh_token env).
Proof.
  intros w. unfold refresh_token. rewrite bind_headers_get.
  generalize (ci_get "Authorization" (headers (session (self w)))).
  intros x_access_token. revert w. sends_one.
Qed.

Lemma sends_one_get_accounts env : sends_one (get_accounts env).
Proof. sends_one. Qed.

Lemma sends_one_get_activities env activity_type limit account_id :
  sends_one (get_activities env activity_type limit account_id).
Proof.
  unfold get_activities. destruct (truthy_opt activity_type); sends_one.
Qed.

(** Every method but [login] sends exactly one request and leaves the
    object as it is. *)
Lemma call_sends_one env (c : Call) :
  is_login c = false -> sends_one (call env c).
Proof.
  destruct c; intros Hc; try discriminate; cbn [call];
    try sends_one.
  - apply sends_one_refresh_token.
  - apply sends_one_bind; [apply sends_one_get_accounts | intros ?; quiet].
  - apply sends_one_bind; [apply sends_one_get_accounts | intros ?; quiet].
  - apply sends_one_get_activities.
Qed.

(** *** Login *)

(** With the three credentials present and a one-time password at hand,
    [login] posts [login_request] and branches on the reply. *)
Lemma login_posts env email password auth_secret_key otp w :
  email <> "" -> password <> "" -> auth_secret_key <> "" ->
  totp_now env auth_secret_key = Ok otp ->
  login env email password auth_secret_key w =
    let w1 := {| self := self w;
                 wire := wire w ++ [login_request w email password otp] |} in
    match transport env (wire w) (login_request w email password otp) with
    | Ok res =>
        if (status_code res =? 401)%Z
        then (Err (PyException "Invalid login credentials"), w1)
        else
          match ci_getitem "X-Access-Token" (resp_headers res) with
          | Ok token => (Ok tt, {| self := with_token token (self w); wire := wire w1 |})
          | Err e => (Err e, w1)
          end
    | Err e => (Err e, w1)
    end.
Proof.
  intros He Hp Hk Hotp. unfold login.
  apply truthy_true in He, Hp, Hk. rewrite He, Hp, Hk. cbn [andb negb].
  unfold bind at 1. rewrite Hotp. cbn [lift].
  unfold bind at 1, post, request. fold (login_request w email password otp).
  destruct (transport env (wire w) (login_request w email password otp)) as [res|e];
    [|reflexivity].
  destruct (status_code res =? 401)%Z; [reflexivity|].
  unfold bind, lift. destruct (ci_getitem "X-Access-Token" (resp_headers res)); reflexivity.
Qed.

(** Whatever its arguments and the reply, [login] either leaves the object
    as it is or stores one token in it, and sends at most the one request. *)
Lemma login_writes_only_token env email password auth_secret_key w :
  (self (snd (login env email password auth_secret_key w)) = self w \/
   exists token,
     self (snd (login env email password auth_secret_key w)) = with_token token (self w)) /\
  exists reqs,
    wire (snd (login env email password auth_secret_key w)) = wire w ++ reqs /\
    length reqs <= 1.
Proof.
  assert (Hnone : forall w0 : World, exists reqs, wire w0 = wire w0 ++ reqs /\ length reqs <= 1).
  { intros w0. exists []. rewrite app_nil_r. simpl. split; [reflexivity | lia]. }
  assert (Hone : forall (l : list Request) req,
             exists reqs, l ++ [req] = l ++ reqs /\ length reqs <= 1).
  { intros l req. exists [req]. simpl. split; [reflexivity | lia]. }
  unfold login, bind, lift, post, request, raise, headers_update.
  repeat case_match; simplify_eq; cbn [snd self wire];
    (split;
     [ first [by left | right; eexists; reflexivity]
     | first [apply Hnone | apply Hone] ]).
Qed.

(** *** C7 *)

(** C7. When the service answers the login with status 401, [login] fails
    with the exception of the invalid credentials, an [AuthenticationError];
    the wire has grown by exactly the one login [POST]; the object, and with
    it the session's headers, is as it was, so an [Authorization] header that
    was unset, as in the fresh session of a construction, is still unset. *)
Theorem unauthorized_login_fails_after_one_post
    (env : Env) (email password auth_secret_key otp : string)
    (res : Response) (w : World) :
  email <> "" -> password <> "" -> auth_secret_key <> "" ->
  totp_now env auth_secret_key = Ok otp ->
  transport env (wire w) (login_request w email password otp) = Ok res ->
  status_code res = 401%Z ->
  fst (login env email password auth_secret_key w)
    = Err (PyException "Invalid login credentials") /\
  kind_of (PyException "Invalid login credentials") = AuthenticationError /\
  wire (snd (login env email password auth_secret_key w))
    = wire w ++ [login_request w email password otp] /\
  meth (login_request w email password otp) = POST /\
  url (login_request w email password otp) = baseURL (self w) +:+ "auth/login" /\
  self (snd (login env email password auth_secret_key w)) = self w /\
  (authorization w = None ->
   authorization (snd (login env email password auth_secret_key w)) = None).
Proof.
  intros He Hp Hk Hotp Hres Hstatus.
  rewrite (login_posts env email password auth_secret_key otp w He Hp Hk Hotp).
  cbv zeta. rewrite Hres, Hstatus. cbn.
  repeat split; try reflexivity. done.
Qed.

Lemma unauthorized_login_fails_after_one_post_witness :
  let env := Fixture.env Fixture.unauthorized Fixture.table in
  fst (__init__ env "me@example.com" "hunter2" "JBSWY3DPEHPK3PXP")
    = Err (PyException "Invalid login credentials") /\
  wire (snd (__init__ env "me@example.com" "hunter2" "JBSWY3DPEHPK3PXP"))
    = [login_request (new_object env) "me@example.com" "hunter2" "492039"] /\
  authorization (snd (__init__ env "me@example.com" "hunter2" "JBSWY3DPEHPK3PXP")) = None.
Proof.
  intros env.
  destruct (unauthorized_login_fails_after_one_post env
              "me@example.com" "hunter2" "JBSWY3DPEHPK3PXP" "492039"
              Fixture.unauthorized (new_object env))
    as (Hr & _ & Hw & _ & _ & _ & Ha);
    [discriminate | discriminate | discriminate
    | reflexivity | reflexivity | reflexivity |].
  split; [exact Hr|]. split; [exact Hw|].
  apply Ha. apply fresh_session_unauthorized.
Defined.

(** *** C2 *)

(** C2, counterexample. The service answers the login with status 503 and
    no [X-Access-Token] header: the status is not the unauthorized one, yet
    the construction fails with the [KeyError] of the header lookup and the
    session stores no [Authorization] header. *)
Lemma login_reply_without_access_token :
  let env := Fixture.env Fixture.unavailable Fixture.table in
  let out := __init__ env "me@example.com" "hunter2" "JBSWY3DPEHPK3PXP" in
  transport env (wire (new_object env))
    (login_request (new_object env) "me@example.com" "hunter2" "492039")
    = Ok Fixture.unavailable /\
  status_code Fixture.unavailable <> 401%Z /\
  fst out = Err (KeyError "x-access-token") /\
  authorization (snd out) = None.
Proof.
  cbv zeta. split; [reflexivity|]. split; [discriminate|].
  unfold __init__.
  rewrite (login_posts _ _ _ _ "492039") by (discriminate || reflexivity).
  split; [reflexivity|]. apply fresh_session_unauthorized.
Qed.

(** C2, amended. When the reply to the login is not 401 and carries an
    [X-Access-Token] header, [login] succeeds and the session's
    [Authorization] header is exactly that header's value; every request
    then issued through the session, and so the one request each method
    sends, carries that value as its [Authorization] header. *)
Theorem login_stores_access_token
    (env : Env) (email password auth_secret_key otp token : string)
    (res : Response) (w : World) :
  email <> "" -> password <> "" -> auth_secret_key <> "" ->
  totp_now env auth_secret_key = Ok otp ->
  transport env (wire w) (login_request w email password otp) = Ok res ->
  status_code res <> 401%Z ->
  ci_get "X-Access-Token" (resp_headers res) = Some token ->
  let w' := snd (login env email password auth_secret_key w) in
  fst (login env email password auth_secret_key w) = Ok tt /\
  authorization w' = Some token /\
  (forall m u js,
     exists req,
       wire (snd (request env m u js w')) = wire w' ++ [req] /\
       ci_get "Authorization" (req_headers req) = Some token) /\
  (forall c, is_login c = false ->
     exists req,
       wire (snd (call env c w')) = wire w' ++ [req] /\
       ci_get "Authorization" (req_headers req) = Some token).
Proof.
  intros He Hp Hk Hotp Hres Hstatus Htoken w'. subst w'.
  rewrite (login_posts env email password auth_secret_key otp w He Hp Hk Hotp).
  cbv zeta. rewrite Hres.
  apply Z.eqb_neq in Hstatus. rewrite Hstatus.
  unfold ci_getitem. rewrite Htoken. cbn [fst snd].
  set (w' := {| self := with_token token (self w); wire := _ |}).
  assert (Hauth : authorization w' = Some token)
    by apply ci_get_update_same.
  split; [reflexivity|]. split; [exact Hauth|]. split.
  - intros m u js. eexists. split; [reflexivity|].
    cbn [req_headers]. by rewrite prepare_headers_Authorization.
  - intros c Hc. destruct (call_sends_one env c Hc w') as (req & Hw & Hh).
    exists req. rewrite Hw. split; [reflexivity|].
    rewrite Hh. by rewrite prepare_headers_Authorization.
Qed.

Lemma login_stores_access_token_witness :
  let env := Fixture.env Fixture.accepted Fixture.table in
  fst (__init__ env "me@example.com" "hunter2" "JBSWY3DPEHPK3PXP") = Ok tt /\
  authorization Fixture.world = Some "token-1" /\
  exists req,
    wire (snd (call env GetAccounts Fixture.world)) = wire Fixture.world ++ [req] /\
    ci_get "Authorization" (req_headers req) = Some "token-1".
Proof.
  intros env.
  destruct (login_stores_access_token env
              "me@example.com" "hunter2" "JBSWY3DPEHPK3PXP" "492039" "token-1"
              Fixture.accepted (new_object env))
    as (Hr & Ha & _ & Hc);
    [discriminate | discriminate | discriminate
    | reflexivity | reflexivity | discriminate | reflexivity |].
  split; [exact Hr|]. split; [exact Ha|].
  apply (Hc GetAccounts). reflexivity.
Defined.

(** *** C8 *)

Lemma calls_preserve_self env cs :
  Forall (fun c => is_login c = false) cs ->
  forall w, self (calls env cs w) = self w.
Proof.
  induction 1 as [|c cs Hc _ IH]; intros w; [reflexivity|].
  cbn [calls]. rewrite IH.
  destruct (call_sends_one env c Hc w) as (req & Hw & _). by rewrite Hw.
Qed.

Lemma refresh_token_returns_reply env w :
  refresh_token env w =
    (match transport env (wire w) (refresh_request w) with
     | Ok res => json_of res
     | Err e => Err e
     end,
     {| self := self w; wire := wire w ++ [refresh_request w] |}).
Proof.
  unfold refresh_token. rewrite bind_headers_get.
  unfold bind, post, request, lift. fold (authorization w). fold (refresh_request w).
  destruct (transport env (wire w) (refresh_request w)) as [res|e]; [|reflexivity].
  by destruct (json_of res).
Qed.

(** C8. The stored bearer token is written by [login] and by nothing else:
    a [login] leaves the object as it was or stores one token in it; any run
    of calls of the other methods leaves the object, its session headers and
    so the [Authorization] header as they were; in particular
    [refresh_token] posts the stored token, returns the JSON of the reply as
    it is (or the exception met on the way) and leaves the object as it
    was. *)
Theorem bearer_token_written_only_by_login (env : Env) (cs : list Call) (w : World) :
  Forall (fun c => is_login c = false) cs ->
  self (calls env cs w) = self w /\
  headers (session (self (calls env cs w))) = headers (session (self w)) /\
  authorization (calls env cs w) = authorization w /\
  fst (refresh_token env w)
    = match transport env (wire w) (refresh_request w) with
      | Ok res => json_of res
      | Err e => Err e
      end /\
  self (snd (refresh_token env w)) = self w /\
  (forall email password auth_secret_key,
     self (snd (login env email password auth_secret_key w)) = self w \/
     exists token,
       self (snd (login env email password auth_secret_key w))
         = with_token token (self w)).
Proof.
  intros Hcs.
  pose proof (calls_preserve_self env cs Hcs w) as Hself.
  split; [exact Hself|].
  split; [by rewrite Hself|].
  split; [unfold authorization; by rewrite Hself|].
  rewrite refresh_token_returns_reply. cbn [fst snd self].
  split; [reflexivity|]. split; [reflexivity|].
  intros email password auth_secret_key.
  apply (login_writes_only_token env email password auth_secret_key w).
Qed.

Lemma bearer_token_written_only_by_login_witness :
  let env := Fixture.env Fixture.accepted Fixture.table in
  let cs := [RefreshToken; GetAccounts; GetAccountIds; GetAccount "nobody";
             GetAccountHistory "tfsa-1" "3m"; GetOrders (Some "AC");
             PlaceFractionalShareOrder "sec-s-6e73535b8e474d8689064c4c9fee326a"
               "tfsa-1" (JFloat 105 (-1));
             CancelOrder "order-1"; GetSecurity "sec-s-6e73535b8e474d8689064c4c9fee326a";
             GetSecurityFromTicker "AC"; GetPositions "tfsa-1";
             GetActivities None 20 AllAccounts; GetMe; GetPerson;
             GetBankAccounts; GetDeposits; GetForex; RefreshToken] in
  Forall (fun c => is_login c = false) cs /\
  authorization (calls env cs Fixture.world) = Some "token-1" /\
  length (wire (calls env cs Fixture.world)) = 19.
Proof.
  intros env cs.
  assert (Hcs : Forall (fun c => is_login c = false) cs)
    by (repeat constructor).
  split; [exact Hcs|].
  destruct (bearer_token_written_only_by_login env cs Fixture.world Hcs)
    as (_ & _ & Ha & _).
  split; [rewrite Ha; reflexivity | reflexivity].
Defined.

(** *** Reading the [results] of a [GET] *)

Lemma eq_str_true v s : eq_str v s = true <-> v = JStr s.
Proof.
  destruct v; simpl; try (split; [discriminate | congruence]).
  rewrite String.eqb_eq. split; congruence.
Qed.

(** A [GET] whose reply is JSON: the methods that unwrap [results] return
    that field of the body, or raise what reading it raises. *)
Lemma get_then_results env path w res b :
  transport env (wire w) (get_request w path) = Ok res ->
  body res = Some b ->
  (r <- get env path ;; res <- lift (json_of r) ;; lift (getitem res "results")) w
    = (getitem b "results", sent w (get_request w path)).
Proof.
  intros Hres Hb. unfold bind, get, request, lift, json_of.
  fold (get_request w path). rewrite Hres, Hb.
  by destruct (getitem b "results").
Qed.

(** *** C3 *)

Lemma get_account_scans env account_id w w' accounts :
  get_accounts env w = (Ok (JArr accounts), w') ->
  get_account env account_id w = (find_account account_id accounts, w').
Proof.
  intros H. unfold get_account. unfold bind at 1. rewrite H.
  unfold bind, lift. cbn [iter]. by destruct (find_account account_id accounts).
Qed.

(** The loop returns the first account whose [id] is [account_id]. *)
Lemma find_account_first account_id accounts :
  Forall (has_field "id") accounts ->
  (exists a, In a accounts /\ getitem a "id" = Ok (JStr account_id)) ->
  exists pre a post,
    accounts = pre ++ a :: post /\
    getitem a "id" = Ok (JStr account_id) /\
    Forall (fun b => getitem b "id" <> Ok (JStr account_id)) pre /\
    find_account account_id accounts = Ok a.
Proof.
  induction 1 as [|x accounts [i Hi] Hall IH]; intros (a & Hin & Ha).
  - destruct Hin.
  - cbn [find_account]. rewrite Hi.
    destruct (eq_str i account_id) eqn:Heq.
    + apply eq_str_true in Heq. subst i.
      exists [], x, accounts. by repeat split.
    + assert (Hx : getitem x "id" <> Ok (JStr account_id)).
      { rewrite Hi. intros [= ->]. simpl in Heq. by rewrite String.eqb_refl in Heq. }
      destruct Hin as [-> | Hin]; [contradiction|].
      destruct IH as (pre & a' & post & -> & Ha' & Hpre & Hfind); [by exists a|].
      exists (x :: pre), a', post. repeat split; try done.
      by constructor.
Qed.

Lemma find_account_absent account_id accounts :
  Forall (has_field "id") accounts ->
  (forall a, In a accounts -> getitem a "id" <> Ok (JStr account_id)) ->
  find_account account_id accounts = Err (no_such_account account_id).
Proof.
  induction 1 as [|x accounts [i Hi] Hall IH]; intros Hno; [reflexivity|].
  cbn [find_account]. rewrite Hi.
  destruct (eq_str i account_id) eqn:Heq.
  - apply eq_str_true in Heq. subst i. destruct (Hno x); [by left | done].
  - apply IH. intros a Ha. apply Hno. by right.
Qed.

(** C3. Let [get_accounts] return the account list [accounts], each account
    an object with an [id].  When some account of the list has the [id]
    [account_id], [get_account] returns an account of the list with that
    [id], the first one; when none has, it raises the [NameError] of the
    unknown account, a [NotFoundError].  Either way it has sent what
    [get_accounts] sends and nothing more. *)
Theorem get_account_finds_or_raises
    (env : Env) (account_id : string) (accounts : list json) (w w' : World) :
  get_accounts env w = (Ok (JArr accounts), w') ->
  Forall (has_field "id") accounts ->
  ((exists a, In a accounts /\ getitem a "id" = Ok (JStr account_id)) ->
   exists pre a post,
     get_account env account_id w = (Ok a, w') /\
     accounts = pre ++ a :: post /\
     getitem a "id" = Ok (JStr account_id) /\
     Forall (fun b => getitem b "id" <> Ok (JStr account_id)) pre) /\
  ((forall a, In a accounts -> getitem a "id" <> Ok (JStr account_id)) ->
   get_account env account_id w = (Err (no_such_account account_id), w') /\
   kind_of (no_such_account account_id) = NotFoundError).
Proof.
  intros Hget Hids. rewrite (get_account_scans env account_id w w' accounts Hget).
  split.
  - intros Hsome.
    destruct (find_account_first account_id accounts Hids Hsome)
      as (pre & a & post & Hsplit & Ha & Hpre & Hfind).
    exists pre, a, post. by rewrite Hfind.
  - intros Hnone. by rewrite (find_account_absent account_id accounts Hids Hnone).
Qed.

Lemma get_account_finds_or_raises_witness :
  let env := Fixture.env Fixture.accepted Fixture.table in
  let w' := snd (get_accounts env Fixture.world) in
  get_accounts env Fixture.world = (Ok (JArr Fixture.accounts), w') /\
  Forall (has_field "id") Fixture.accounts /\
  (exists a, get_account env "rrsp-2" Fixture.world = (Ok a, w') /\
             getitem a "id" = Ok (JStr "rrsp-2")) /\
  get_account env "nobody" Fixture.world = (Err (no_such_account "nobody"), w').
Proof.
  intros env w'.
  assert (Hget : get_accounts env Fixture.world = (Ok (JArr Fixture.accounts), w'))
    by reflexivity.
  assert (Hids : Forall (has_field "id") Fixture.accounts)
    by (repeat constructor; eexists; reflexivity).
  split; [exact Hget|]. split; [exact Hids|]. split.
  - destruct (get_account_finds_or_raises env "rrsp-2" Fixture.accounts
                Fixture.world w' Hget Hids) as [Hfound _].
    destruct Hfound as (pre & a & post & Hres & _ & Ha & _).
    + exists (Fixture.account "rrsp-2" "ca_rrsp"). split; [|reflexivity].
      right; left; reflexivity.
    + exists a. split; [exact Hres | exact Ha].
  - destruct (get_account_finds_or_raises env "nobody" Fixture.accounts
                Fixture.world w' Hget Hids) as [_ Hmissing].
    apply Hmissing.
    intros a [<- | [<- | [<- | []]]]; discriminate.
Defined.

(** *** C6 *)

Lemma mapM_field k (l : list json) :
  Forall (has_field k) l ->
  mapM (fun v => getitem v k) l = Ok (map (field k) l).
Proof.
  induction 1 as [|x l [i Hi] _ IH]; [reflexivity|].
  cbn [mapM map]. unfold field at 1. rewrite Hi, IH. reflexivity.
Qed.

Lemma get_accounts_sends_one_get env w :
  snd (get_accounts env w) = sent w (get_request w "account/list").
Proof.
  unfold get_accounts, bind, get, request, lift. fold (get_request w "account/list").
  unfold sent. by repeat case_match.
Qed.

(** C6. Let [get_accounts] return the account list [accounts], each account
    an object with an [id].  Then [get_account_ids] returns the [id] fields
    of [accounts], in the order of the list; and, whatever [get_accounts]
    returns, [get_account_ids] leaves the world as [get_accounts] does: the
    one request on the wire is the [GET] of [account/list], there is no call
    of another endpoint. *)
Theorem get_account_ids_maps_accounts
    (env : Env) (accounts : list json) (w w' : World) :
  get_accounts env w = (Ok (JArr accounts), w') ->
  Forall (has_field "id") accounts ->
  get_account_ids env w = (Ok (JArr (map (field "id") accounts)), w') /\
  snd (get_account_ids env w) = snd (get_accounts env w) /\
  snd (get_account_ids env w) = sent w (get_request w "account/list").
Proof.
  intros Hget Hids.
  assert (Hout : get_account_ids env w = (Ok (JArr (map (field "id") accounts)), w')).
  { unfold get_account_ids. unfold bind at 1. rewrite Hget.
    unfold bind, lift, ret. cbn [iter]. by rewrite (mapM_field "id" accounts Hids). }
  split; [exact Hout|].
  rewrite Hout, <- (get_accounts_sends_one_get env w), Hget. by split.
Qed.

Lemma get_account_ids_maps_accounts_witness :
  let env := Fixture.env Fixture.accepted Fixture.table in
  let w' := snd (get_accounts env Fixture.world) in
  get_accounts env Fixture.world = (Ok (JArr Fixture.accounts), w') /\
  Forall (has_field "id") Fixture.accounts /\
  get_account_ids env Fixture.world
    = (Ok (JArr [JStr "tfsa-1"; JStr "rrsp-2"; JStr "non-reg-3"]), w').
Proof.
  intros env w'.
  assert (Hget : get_accounts env Fixture.world = (Ok (JArr Fixture.accounts), w'))
    by reflexivity.
  assert (Hids : Forall (has_field "id") Fixture.accounts)
    by (repeat constructor; eexists; reflexivity).
  split; [exact Hget|]. split; [exact Hids|].
  apply (get_account_ids_maps_accounts env Fixture.accounts Fixture.world w' Hget Hids).
Defined.

(** *** C5 and C10 *)

Lemma filter_orders_filter symbol (orders : list json) :
  Forall (has_field "symbol") orders ->
  filter_orders symbol orders = Ok (List.filter (field_is "symbol" symbol) orders).
Proof.
  induction 1 as [|x orders [s Hs] _ IH]; [reflexivity|].
  cbn [filter_orders List.filter]. unfold field_is at 1. rewrite Hs, IH. reflexivity.
Qed.

Lemma get_orders_unfiltered env symbol w res b :
  truthy_opt symbol = false ->
  transport env (wire w) (get_request w "orders") = Ok res ->
  body res = Some b ->
  get_orders env symbol w = (getitem b "results", sent w (get_request w "orders")).
Proof.
  intros Hsym Hres Hb. unfold get_orders. rewrite Hsym.
  apply (get_then_results env "orders" w res b Hres Hb).
Qed.

(** C5. Let the reply to the [GET] of [orders] have the order list [orders]
    as its [results], each order an object with a [symbol].  With a
    non-empty [symbol], [get_orders] returns the orders whose [symbol] field
    equals it, in the order of the list; with no symbol it returns the list
    as it is. *)
Theorem get_orders_filters_by_symbol
    (env : Env) (symbol : string) (orders : list json)
    (res : Response) (b : json) (w : World) :
  transport env (wire w) (get_request w "orders") = Ok res ->
  body res = Some b ->
  getitem b "results" = Ok (JArr orders) ->
  Forall (has_field "symbol") orders ->
  symbol <> "" ->
  get_orders env (Some symbol) w
    = (Ok (JArr (List.filter (field_is "symbol" symbol) orders)),
       sent w (get_request w "orders")) /\
  get_orders env None w = (Ok (JArr orders), sent w (get_request w "orders")).
Proof.
  intros Hres Hb Hresults Hsyms Hsymbol. split.
  - unfold get_orders. cbn [truthy_opt]. apply truthy_true in Hsymbol. rewrite Hsymbol.
    unfold bind, get, request, lift, ret, json_of. fold (get_request w "orders").
    rewrite Hres, Hb, Hresults. cbn [iter default]. unfold id.
    by rewrite (filter_orders_filter symbol orders Hsyms).
  - rewrite (get_orders_unfiltered env None w res b eq_refl Hres Hb).
    by rewrite Hresults.
Qed.

Lemma get_orders_filters_by_symbol_witness :
  let env := Fixture.env Fixture.accepted Fixture.table in
  get_orders env (Some "AC") Fixture.world
    = (Ok (JArr [Fixture.order "order-1" "AC"; Fixture.order "order-3" "AC"]),
       sent Fixture.world (get_request Fixture.world "orders")) /\
  get_orders env None Fixture.world
    = (Ok (JArr Fixture.orders), sent Fixture.world (get_request Fixture.world "orders")).
Proof.
  intros env.
  apply (get_orders_filters_by_symbol env "AC" Fixture.orders
           (Fixture.reply 200 ∅ (Some (JObj [("results", JArr Fixture.orders)])))
           (JObj [("results", JArr Fixture.orders)]) Fixture.world).
  - reflexivity.
  - reflexivity.
  - reflexivity.
  - repeat constructor; eexists; reflexivity.
  - discriminate.
Defined.

(** C10. With the empty string as [symbol], [get_orders] does what it does
    with no symbol: it returns the [results] of the reply as they are, the
    full list, and filters nothing. *)
Theorem get_orders_empty_symbol_is_unfiltered
    (env : Env) (res : Response) (b results : json) (w : World) :
  transport env (wire w) (get_request w "orders") = Ok res ->
  body res = Some b ->
  getitem b "results" = Ok results ->
  get_orders env (Some "") w = get_orders env None w /\
  get_orders env (Some "") w = (Ok results, sent w (get_request w "orders")).
Proof.
  intros Hres Hb Hresults. split; [reflexivity|].
  rewrite (get_orders_unfiltered env (Some "") w res b eq_refl Hres Hb).
  by rewrite Hresults.
Qed.

Lemma get_orders_empty_symbol_is_unfiltered_witness :
  let env := Fixture.env Fixture.accepted (Fixture.table_with Fixture.orders_blank) in
  let w := snd (__init__ env "me@example.com" "hunter2" "JBSWY3DPEHPK3PXP") in
  fst (get_orders env (Some "") w) = Ok (JArr Fixture.orders_blank) /\
  List.filter (field_is "symbol" "") Fixture.orders_blank = [Fixture.order "order-2" ""].
Proof.
  intros env w.
  destruct (get_orders_empty_symbol_is_unfiltered env
              (Fixture.reply 200 ∅ (Some (JObj [("results", JArr Fixture.orders_blank)])))
              (JObj [("results", JArr Fixture.orders_blank)])
              (JArr Fixture.orders_blank) w) as [_ Hall];
    [reflexivity | reflexivity | reflexivity |].
  split; [by rewrite Hall | reflexivity].
Defined.

(** *** C4 *)

(** C4, counterexample. The body of the reply is not the object
    [{"error": "Record not found"}]: it has a [results] field next to the
    [error] field, the empty list.  [get_account_history] does not return
    that field, it raises the [NameError] of the unknown account. *)
Lemma history_error_next_to_results :
  let env := Fixture.env Fixture.accepted Fixture.table in
  let b := JObj [("error", JStr "Record not found"); ("results", JArr [])] in
  transport env (wire Fixture.world)
    (get_request Fixture.world "account/history/all?account_id=odd")
    = Ok (Fixture.reply 200 ∅ (Some b)) /\
  b <> JObj [("error", JStr "Record not found")] /\
  getitem b "results" = Ok (JArr []) /\
  fst (get_account_history env "odd" "all" Fixture.world)
    = Err (NameError "odd does not correspond to any account").
Proof.
  cbv zeta. split; [reflexivity|]. split; [discriminate|].
  split; reflexivity.
Qed.

(** C4, amended. For every period and account id, the six documented
    periods included: when the body of the reply is an object whose [error]
    field is ["Record not found"], whatever else it holds,
    [get_account_history] raises the [NameError] of the unknown account, a
    [NotFoundError]; for every other body that has a [results] field it
    returns that field.  Either way the one request sent is the [GET] of
    [account/history/<period>?account_id=<account_id>]. *)
Theorem get_account_history_raises_or_unwraps
    (env : Env) (account_id time : string) (res : Response) (b : json) (w : World) :
  transport env (wire w)
    (get_request w ("account/history/" +:+ time +:+ "?account_id=" +:+ account_id))
    = Ok res ->
  body res = Some b ->
  let w' := sent w (get_request w
              ("account/history/" +:+ time +:+ "?account_id=" +:+ account_id)) in
  (field_is "error" "Record not found" b = true ->
   get_account_history env account_id time w = (Err (no_such_account account_id), w') /\
   kind_of (no_such_account account_id) = NotFoundError) /\
  (field_is "error" "Record not found" b = false ->
   forall x, getitem b "results" = Ok x ->
   get_account_history env account_id time w = (Ok x, w')).
Proof.
  intros Hres Hb w'. subst w'.
  unfold get_account_history, bind, get, request, lift, raise, json_of.
  fold (get_request w ("account/history/" +:+ time +:+ "?account_id=" +:+ account_id)).
  rewrite Hres, Hb. unfold field_is, sent.
  destruct b as [| | | | |items|fields]; cbn [contains getitem];
    try (split; [discriminate | intros _ x [=]]).
  destruct (assoc "error" fields) as [e|] eqn:He.
  - rewrite bool_decide_eq_true_2 by eauto.
    destruct (eq_str e "Record not found"); split; try discriminate.
    + by intros _.
    + intros _ x Hx. by rewrite Hx.
  - rewrite bool_decide_eq_false_2 by (intros [? [=]]).
    split; [discriminate|]. intros _ x Hx. by rewrite Hx.
Qed.

Lemma get_account_history_raises_or_unwraps_witness :
  let env := Fixture.env Fixture.accepted Fixture.table in
  fst (get_account_history env "nobody" "3m" Fixture.world)
    = Err (no_such_account "nobody") /\
  fst (get_account_history env "tfsa-1" "3m" Fixture.world)
    = Ok (JArr [JObj [("date", JStr "2021-01-04")]]) /\
  In "3m" periods.
Proof.
  intros env.
  destruct (get_account_history_raises_or_unwraps env "nobody" "3m"
              (Fixture.reply 200 ∅ (Some (JObj [("error", JStr "Record not found")])))
              (JObj [("error", JStr "Record not found")]) Fixture.world)
    as [Hraise _]; [reflexivity | reflexivity |].
  destruct (get_account_history_raises_or_unwraps env "tfsa-1" "3m"
              (Fixture.reply 200 ∅
                 (Some (JObj [("results", JArr [JObj [("date", JStr "2021-01-04")]])])))
              (JObj [("results", JArr [JObj [("date", JStr "2021-01-04")]])])
              Fixture.world)
    as [_ Hunwrap]; [reflexivity | reflexivity |].
  destruct (Hraise eq_refl) as [Hr _].
  specialize (Hunwrap eq_refl _ eq_refl).
  split; [by rewrite Hr|]. split; [by rewrite Hunwrap|].
  simpl. tauto.
Defined.

(** *** C9 *)

(** The query [get_activities] sends, for every argument: the account id
    follows the parameter name directly, with no equals sign between. *)
Lemma get_activities_request env activity_type limit account_id w :
  snd (get_activities env activity_type limit account_id w)
    = sent w (get_request w
        (if truthy_opt activity_type
         then "account/activities?limit=" +:+ pretty limit +:+
              "&account_id" +:+ str_of_account account_id +:+
              "&type=" +:+ default "" activity_type
         else "account/activities?limit=" +:+ pretty limit +:+
              "&account_id" +:+ str_of_account account_id)).
Proof.
  unfold get_activities, sent.
  destruct (truthy_opt activity_type);
    unfold bind, get, request, lift, get_request;
    by repeat case_match.
Qed.

(** C9. [get_activities(limit=20, account_id="tfsa-1")] sends the [GET] of
    [account/activities?limit=20&account_idtfsa-1]: the equals sign of the
    [account_id] parameter is missing, the query is not the
    [account/activities?limit=20&account_id=tfsa-1] the specification gives
    and the sibling methods [get_positions] and [get_account_history] would
    build.  With a type and the default account the query is
    [account/activities?limit=20&account_id[]&type=buy]. *)
Theorem get_activities_omits_equals_sign :
  let env := Fixture.env Fixture.accepted Fixture.table in
  wire (snd (get_activities env None 20 (Account "tfsa-1") Fixture.world))
    = wire Fixture.world ++
      [get_request Fixture.world "account/activities?limit=20&account_idtfsa-1"] /\
  url (get_request Fixture.world "account/activities?limit=20&account_idtfsa-1")
    = "https://trade-service.wealthsimple.com/account/activities?limit=20&account_idtfsa-1" /\
  "account/activities?limit=20&account_idtfsa-1"
    <> "account/activities?limit=20&account_id=tfsa-1" /\
  wire (snd (get_activities env (Some "buy") 20 AllAccounts Fixture.world))
    = wire Fixture.world ++
      [get_request Fixture.world "account/activities?limit=20&account_id[]&type=buy"].
Proof.
  cbv zeta. split; [reflexivity|]. split; [reflexivity|].
  split; [discriminate | reflexivity].
Qed.

(** ** Beyond the claims: every method, every reply *)

(** *** The request of each method *)

Ltac run_call :=
  unfold call, refresh_token, get_account_ids, get_account, get_accounts,
    get_account_history, get_orders, place_fractional_share_order,
    cancel_order, get_security, get_security_from_ticker, get_positions,
    get_activities, get_me, get_person, get_bank_accounts, get_deposits,
    get_forex, headers_get, bind, get, post, delete, request, lift, ret, raise,
    sent, get_request, post_request, delete_request, refresh_request,
    order_body, authorization, json_of in *.

Lemma endpoint_call_effect env (c : Call) (w : World) (req : Request) :
  endpoint_request c w = Some req ->
  snd (call env c w) = sent w req.
Proof.
  destruct c; cbn [endpoint_request]; intros [= <-];
    run_call; repeat case_match; simplify_eq; reflexivity.
Qed.



(** *** What the methods make of the reply *)

(** X2. The methods that return the reply as it is ([refresh_token],
    [place_fractional_share_order], [cancel_order], [get_security],
    [get_me], [get_person], [get_forex]) return the JSON of the body
    whatever the status code: an error body comes back as an ordinary
    value, no exception is raised for it. *)
Theorem raw_methods_return_reply_json
    (env : Env) (c : Call) (w : World) (req : Request) (res : Response) :
  returns_raw c = true ->
  endpoint_request c w = Some req ->
  transport env (wire w) req = Ok res ->
  fst (call env c w) = json_of res.
Proof.
  destruct c; cbn [returns_raw endpoint_request]; intros Hraw [= <-] Hres;
    try discriminate; run_call; rewrite Hres; by destruct (body res).
Qed.

Lemma raw_methods_return_reply_json_witness :
  let env := Cases.always (Fixture.reply 404 ∅ (Some Cases.expired)) in
  fst (call env (GetSecurity "sec-s-0") Fixture.world) = Ok Cases.expired.
Proof.
  intros env.
  apply (raw_methods_return_reply_json env (GetSecurity "sec-s-0") Fixture.world
           (get_request Fixture.world "securities/sec-s-0")
           (Fixture.reply 404 ∅ (Some Cases.expired)));
    reflexivity.
Defined.

(** X3. The methods that unwrap [results] ([get_accounts],
    [get_security_from_ticker], [get_positions], [get_activities],
    [get_bank_accounts], [get_deposits], and [get_orders] without a symbol)
    return exactly [b["results"]] for the body [b] of the reply: when [b]
    is an object without that field, an error body for one, they raise
    [KeyError("results")]; when [b] is not an object they raise
    [TypeError]. *)
Theorem unwrapping_methods_read_results
    (env : Env) (c : Call) (w : World) (req : Request) (res : Response) (b : json) :
  unwraps_results c = true ->
  endpoint_request c w = Some req ->
  transport env (wire w) req = Ok res ->
  body res = Some b ->
  fst (call env c w) = getitem b "results" /\
  (forall fields, b = JObj fields -> assoc "results" fields = None ->
     fst (call env c w) = Err (KeyError "results")) /\
  ((forall fields, b <> JObj fields) -> fst (call env c w) = Err TypeError).
Proof.
  intros Hc Hreq Hres Hb.
  assert (Hout : fst (call env c w) = getitem b "results").
  { destruct c; cbn [unwraps_results endpoint_request] in Hc, Hreq;
      try discriminate; injection Hreq as <-.
    all: try (run_call; rewrite Hres, Hb; by destruct b as [| | | | | |fields];
              cbn; try destruct (assoc "results" fields)).
    - apply negb_true_iff in Hc. unfold call, get_orders. rewrite Hc.
      run_call. rewrite Hres, Hb. by destruct (getitem b "results").
    - unfold call, get_activities. destruct (truthy_opt activity_type);
        run_call; rewrite Hres, Hb; by destruct (getitem b "results"). }
  rewrite Hout. split; [reflexivity|]. split.
  - intros fields -> Hnone. cbn. by rewrite Hnone.
  - intros Hb'. destruct b; try reflexivity. by destruct (Hb' fields).
Qed.

Lemma unwrapping_methods_read_results_witness :
  let env := Cases.always (Fixture.reply 401 ∅ (Some Cases.expired)) in
  fst (call env (GetPositions "tfsa-1") Fixture.world) = Err (KeyError "results").
Proof.
  intros env.
  destruct (unwrapping_methods_read_results env (GetPositions "tfsa-1") Fixture.world
              (get_request Fixture.world "account/positions?account_id=tfsa-1")
              (Fixture.reply 401 ∅ (Some Cases.expired)) Cases.expired)
    as (_ & Hobj & _); [reflexivity | reflexivity | reflexivity | reflexivity |].
  apply (Hobj [("error", JStr "Not authorized")]); reflexivity.
Defined.

(** X4. No method but [login] reads the status code or the headers of the
    reply: two replies with the same body give the same return value or the
    same exception. *)
Theorem reply_status_and_headers_ignored
    (env1 env2 : Env) (c : Call) (w : World) (req : Request) (res1 res2 : Response) :
  endpoint_request c w = Some req ->
  transport env1 (wire w) req = Ok res1 ->
  transport env2 (wire w) req = Ok res2 ->
  body res1 = body res2 ->
  fst (call env1 c w) = fst (call env2 c w).
Proof.
  destruct c; cbn [endpoint_request]; intros [= <-] H1 H2 Hb;
    try (run_call; rewrite H1, H2, Hb; reflexivity).
  unfold call, get_activities. destruct (truthy_opt activity_type);
    run_call; rewrite H1, H2, Hb; reflexivity.
Qed.

Lemma reply_status_and_headers_ignored_witness :
  let env1 := Cases.always (Fixture.reply 200 ∅ (Some Cases.expired)) in
  let env2 := Cases.always
                (Fixture.reply 500 (ci_update "Retry-After" "120" ∅) (Some Cases.expired)) in
  fst (call env1 (GetAccount "tfsa-1") Fixture.world)
    = fst (call env2 (GetAccount "tfsa-1") Fixture.world).
Proof.
  intros env1 env2.
  apply (reply_status_and_headers_ignored env1 env2 (GetAccount "tfsa-1") Fixture.world
           (get_request Fixture.world "account/list")
           (Fixture.reply 200 ∅ (Some Cases.expired))
           (Fixture.reply 500 (ci_update "Retry-After" "120" ∅) (Some Cases.expired)));
    reflexivity.
Defined.

(** X5. When the transport raises, a connection error for one, every method
    but [login] raises that very exception: nothing is caught, nothing is
    retried, the one request is all that went out. *)
Theorem transport_failure_propagates
    (env : Env) (c : Call) (w : World) (req : Request) (e : exn) :
  endpoint_request c w = Some req ->
  transport env (wire w) req = Err e ->
  call env c w = (Err e, sent w req).
Proof.
  destruct c; cbn [endpoint_request]; intros [= <-] He;
    try (run_call; rewrite He; reflexivity).
  unfold call, get_activities. destruct (truthy_opt activity_type);
    run_call; rewrite He; reflexivity.
Qed.

Lemma transport_failure_propagates_witness :
  call Cases.down (GetOrders (Some "AC")) Fixture.world
    = (Err (LibraryError "ConnectionError"),
       sent Fixture.world (get_request Fixture.world "orders")).
Proof.
  apply (transport_failure_propagates Cases.down (GetOrders (Some "AC")) Fixture.world);
    reflexivity.
Defined.

(** X6. When the body of the reply is not JSON, every method but [login]
    raises the [JSONDecodeError] of [json()], after its one request. *)
Theorem non_json_reply_raises
    (env : Env) (c : Call) (w : World) (req : Request) (res : Response) :
  endpoint_request c w = Some req ->
  transport env (wire w) req = Ok res ->
  body res = None ->
  call env c w = (Err JSONDecodeError, sent w req).
Proof.
  destruct c; cbn [endpoint_request]; intros [= <-] Hres Hb;
    try (run_call; rewrite Hres, Hb; reflexivity).
  unfold call, get_activities. destruct (truthy_opt activity_type);
    run_call; rewrite Hres, Hb; reflexivity.
Qed.

Lemma non_json_reply_raises_witness :
  call (Cases.always Cases.gateway) GetMe Fixture.world
    = (Err JSONDecodeError, sent Fixture.world (get_request Fixture.world "me")).
Proof.
  apply (non_json_reply_raises (Cases.always Cases.gateway) GetMe Fixture.world
           (get_request Fixture.world "me") Cases.gateway);
    reflexivity.
Defined.

(** *** Login, beyond the two checked cases *)

(** X7. When [pyotp] raises on the secret, [login] raises that exception
    before anything is sent: the wire and the object are as they were. *)
Theorem login_totp_failure_sends_nothing
    (env : Env) (email password auth_secret_key : string) (e : exn) (w : World) :
  email <> "" -> password <> "" -> auth_secret_key <> "" ->
  totp_now env auth_secret_key = Err e ->
  login env email password auth_secret_key w = (Err e, w).
Proof.
  intros He Hp Hk Hotp. unfold login.
  apply truthy_true in He, Hp, Hk. rewrite He, Hp, Hk. cbn [andb negb].
  unfold bind at 1. by rewrite Hotp.
Qed.

Lemma login_totp_failure_sends_nothing_witness :
  __init__ Cases.bad_secret "me@example.com" "hunter2" "not base32!"
    = (Err (LibraryError "binascii.Error"), new_object Cases.bad_secret).
Proof.
  apply (login_totp_failure_sends_nothing Cases.bad_secret
           "me@example.com" "hunter2" "not base32!");
    (discriminate || reflexivity).
Defined.

(** X8. When the transport raises on the login [POST], [login] raises that
    exception; the request went out once and no token is stored. *)
Theorem login_transport_failure
    (env : Env) (email password auth_secret_key otp : string) (e : exn) (w : World) :
  email <> "" -> password <> "" -> auth_secret_key <> "" ->
  totp_now env auth_secret_key = Ok otp ->
  transport env (wire w) (login_request w email password otp) = Err e ->
  login env email password auth_secret_key w
    = (Err e, sent w (login_request w email password otp)).
Proof.
  intros He Hp Hk Hotp Hres.
  rewrite (login_posts env email password auth_secret_key otp w He Hp Hk Hotp).
  cbv zeta. by rewrite Hres.
Qed.

Lemma login_transport_failure_witness :
  __init__ Cases.down "me@example.com" "hunter2" "JBSWY3DPEHPK3PXP"
    = (Err (LibraryError "ConnectionError"),
       sent (new_object Cases.down)
         (login_request (new_object Cases.down) "me@example.com" "hunter2" "492039")).
Proof.
  apply (login_transport_failure Cases.down
           "me@example.com" "hunter2" "JBSWY3DPEHPK3PXP" "492039");
    (discriminate || reflexivity).
Defined.

(** X9. [login] reads the status code and the [X-Access-Token] header of the
    reply and nothing else: two replies that agree on these give the same
    outcome and the same object, whatever their bodies, JSON or not, and
    their other headers. *)
Theorem login_reads_status_and_token_only
    (env1 env2 : Env) (email password auth_secret_key otp : string)
    (res1 res2 : Response) (w : World) :
  email <> "" -> password <> "" -> auth_secret_key <> "" ->
  totp_now env1 auth_secret_key = Ok otp ->
  totp_now env2 auth_secret_key = Ok otp ->
  transport env1 (wire w) (login_request w email password otp) = Ok res1 ->
  transport env2 (wire w) (login_request w email password otp) = Ok res2 ->
  status_code res1 = status_code res2 ->
  ci_get "X-Access-Token" (resp_headers res1)
    = ci_get "X-Access-Token" (resp_headers res2) ->
  login env1 email password auth_secret_key w
    = login env2 email password auth_secret_key w.
Proof.
  intros He Hp Hk Hotp1 Hotp2 Hres1 Hres2 Hstatus Htoken.
  rewrite (login_posts env1 email password auth_secret_key otp w He Hp Hk Hotp1).
  rewrite (login_posts env2 email password auth_secret_key otp w He Hp Hk Hotp2).
  cbv zeta. rewrite Hres1, Hres2, Hstatus. unfold ci_getitem. by rewrite Htoken.
Qed.

Lemma login_reads_status_and_token_only_witness :
  let page := Fixture.reply 200
                (ci_update "Content-Type" "text/html"
                   (ci_update "x-access-token" "token-1" ∅)) None in
  __init__ (Cases.always Fixture.accepted) "me@example.com" "hunter2" "JBSWY3DPEHPK3PXP"
    = __init__ (Cases.always page) "me@example.com" "hunter2" "JBSWY3DPEHPK3PXP" /\
  fst (__init__ (Cases.always page) "me@example.com" "hunter2" "JBSWY3DPEHPK3PXP")
    = Ok tt.
Proof.
  intros page. split; [|reflexivity].
  apply (login_reads_status_and_token_only
           (Cases.always Fixture.accepted) (Cases.always page)
           "me@example.com" "hunter2" "JBSWY3DPEHPK3PXP" "492039"
           Fixture.accepted page);
    (discriminate || reflexivity).
Defined.

(** X10. A [login] that returns has stored a token: the object it leaves is
    the one before with the [Authorization] header set, and the wire has
    grown by the one login [POST]. *)
Theorem login_returns_only_with_token
    (env : Env) (email password auth_secret_key : string) (w w' : World) :
  login env email password auth_secret_key w = (Ok tt, w') ->
  exists token otp,
    authorization w' = Some token /\
    w' = {| self := with_token token (self w);
            wire := wire w ++ [login_request w email password otp] |}.
Proof.
  unfold login, bind, lift, post, request, raise, headers_update.
  repeat case_match; intros [= <-]; simplify_eq.
  eexists _, _. split; [apply ci_get_update_same | reflexivity].
Qed.

Lemma login_returns_only_with_token_witness :
  exists token otp,
    authorization Fixture.world = Some token /\
    Fixture.world
      = {| self := with_token token (self (new_object (Fixture.env Fixture.accepted Fixture.table)));
           wire := wire (new_object (Fixture.env Fixture.accepted Fixture.table)) ++
                   [login_request (new_object (Fixture.env Fixture.accepted Fixture.table))
                      "me@example.com" "hunter2" otp] |}.
Proof.
  apply (login_returns_only_with_token (Fixture.env Fixture.accepted Fixture.table)
           "me@example.com" "hunter2" "JBSWY3DPEHPK3PXP").
  reflexivity.
Defined.

(** X11. A [login] that raises, for whatever reason, leaves the object as it
    was: a client that was logged in keeps the token it had. *)
Theorem failed_login_keeps_object
    (env : Env) (email password auth_secret_key : string) (e : exn) (w : World) :
  fst (login env email password auth_secret_key w) = Err e ->
  self (snd (login env email password auth_secret_key w)) = self w.
Proof.
  unfold login, bind, lift, post, request, raise, headers_update.
  repeat case_match; simplify_eq; cbn; intros; simplify_eq; reflexivity.
Qed.

Lemma failed_login_keeps_object_witness :
  let env := Fixture.env Fixture.unauthorized Fixture.table in
  fst (login env "me@example.com" "wrong" "JBSWY3DPEHPK3PXP" Fixture.world)
    = Err (PyException "Invalid login credentials") /\
  authorization (snd (login env "me@example.com" "wrong" "JBSWY3DPEHPK3PXP" Fixture.world))
    = Some "token-1".
Proof.
  intros env. split; [reflexivity|].
  unfold authorization.
  rewrite (failed_login_keeps_object env "me@example.com" "wrong" "JBSWY3DPEHPK3PXP"
             (PyException "Invalid login credentials") Fixture.world);
    reflexivity.
Defined.

(** *** Runs of calls *)

Lemma prefix_append (a b : string) : String.prefix a (a +:+ b) = true.
Proof.
  induction a as [|c a IH].
  - by destruct b.
  - change (String c a +:+ b) with (String c (a +:+ b)). cbn [String.prefix].
    destruct (Ascii.ascii_dec c c) as [_|Hc]; [exact IH | by destruct Hc].
Qed.

Lemma endpoint_request_under_base (c : Call) (w : World) (req : Request) :
  endpoint_request c w = Some req -> under_base w req.
Proof.
  destruct c; cbn [endpoint_request]; intros [= <-]; apply prefix_append.
Qed.

Lemma endpoint_request_defined (c : Call) (w : World) :
  is_login c = false -> exists req, endpoint_request c w = Some req.
Proof. destruct c; intros H; try discriminate; eexists; reflexivity. Qed.

(** What a [login] can leave behind: nothing, its request, or its request
    and a token. *)
Lemma login_effect env email password auth_secret_key w :
  snd (login env email password auth_secret_key w) = w \/
  exists otp,
    snd (login env email password auth_secret_key w)
      = sent w (login_request w email password otp) \/
    exists token,
      snd (login env email password auth_secret_key w)
        = {| self := with_token token (self w);
             wire := wire w ++ [login_request w email password otp] |}.
Proof.
  unfold login, bind, lift, post, request, raise, headers_update.
  repeat case_match; simplify_eq; cbn [snd];
    first [ by left
          | right; eexists; left; reflexivity
          | right; eexists; right; eexists; reflexivity ].
Qed.

Lemma call_login env email password auth_secret_key w :
  snd (call env (Login email password auth_secret_key) w)
    = snd (login env email password auth_secret_key w).
Proof.
  cbn [call]. unfold bind, ret.
  by destruct (login env email password auth_secret_key w) as [[[]|e] w1].
Qed.

(** One call, whichever: at most one request, sent under the base URL, and
    an object that differs from the one before by a token at most. *)
Lemma call_step env (c : Call) (w : World) :
  exists reqs,
    wire (snd (call env c w)) = wire w ++ reqs /\
    length reqs <= 1 /\
    Forall (under_base w) reqs /\
    (self (snd (call env c w)) = self w \/
     exists token, self (snd (call env c w)) = with_token token (self w)).
Proof.
  destruct (is_login c) eqn:Hc.
  - destruct c; try discriminate. rewrite call_login.
    destruct (login_effect env email password auth_secret_key w)
      as [-> | [otp [-> | [token ->]]]].
    + exists []. rewrite app_nil_r. repeat split; auto.
    + eexists [_]. repeat split; auto.
      repeat constructor. apply prefix_append.
    + eexists [_]. repeat split; eauto.
      repeat constructor. apply prefix_append.
  - destruct (endpoint_request_defined c w Hc) as [req Hreq].
    rewrite (endpoint_call_effect env c w req Hreq).
    exists [req]. repeat split; auto.
    repeat constructor. by apply (endpoint_request_under_base c).
Qed.

Lemma with_token_other_header token o k :
  lower k <> lower "Authorization" ->
  ci_get k (headers (session (with_token token o))) = ci_get k (headers (session o)).
Proof. intros Hk. cbn. apply ci_get_update_other. congruence. Qed.

(** X12. Over any run of calls, logins included, the base URL of the object
    never changes and no header of the session other than [Authorization]
    is written: the headers a fresh session starts with are still there. *)
Theorem calls_keep_base_url_and_other_headers
    (env : Env) (cs : list Call) (w : World) (k : string) :
  lower k <> lower "Authorization" ->
  baseURL (self (calls env cs w)) = baseURL (self w) /\
  ci_get k (headers (session (self (calls env cs w))))
    = ci_get k (headers (session (self w))).
Proof.
  intros Hk. revert w. induction cs as [|c cs IH]; intros w; [by split|].
  cbn [calls]. destruct (IH (snd (call env c w))) as [-> ->].
  destruct (call_step env c w) as (reqs & _ & _ & _ & [-> | [token ->]]).
  - by split.
  - split; [reflexivity | by apply with_token_other_header].
Qed.

Lemma calls_keep_base_url_and_other_headers_witness :
  let env := Fixture.env Fixture.accepted Fixture.table in
  let cs := [GetAccounts; Login "me@example.com" "hunter2" "JBSWY3DPEHPK3PXP";
             GetOrders None; Login "" "" ""; RefreshToken] in
  ci_get "user-agent" (headers (session (self (calls env cs Fixture.world))))
    = Some "python-requests/2.31.0" /\
  baseURL (self (calls env cs Fixture.world)) = "https://trade-service.wealthsimple.com/".
Proof.
  intros env cs.
  destruct (calls_keep_base_url_and_other_headers env cs Fixture.world "user-agent")
    as [Hb Hh]; [discriminate|].
  split; [rewrite Hh | rewrite Hb]; reflexivity.
Defined.





(** *** Accounts and orders that are not well formed *)

Lemma get_account_unfold env account_id w :
  get_account env account_id w =
    match get_accounts env w with
    | (Ok v, w') =>
        (match iter v with
         | Ok accounts => find_account account_id accounts
         | Err e => Err e
         end, w')
    | (Err e, w') => (Err e, w')
    end.
Proof.
  unfold get_account. unfold bind at 1.
  destruct (get_accounts env w) as [[v|e] w']; [|reflexivity].
  unfold bind, lift. destruct (iter v) as [accounts|e]; [|reflexivity].
  by destruct (find_account account_id accounts).
Qed.

Lemma get_account_ids_unfold env w :
  get_account_ids env w =
    match get_accounts env w with
    | (Ok v, w') =>
        (match iter v with
         | Ok accounts =>
             match mapM (fun account => getitem account "id") accounts with
             | Ok ids => Ok (JArr ids)
             | Err e => Err e
             end
         | Err e => Err e
         end, w')
    | (Err e, w') => (Err e, w')
    end.
Proof.
  unfold get_account_ids. unfold bind at 1.
  destruct (get_accounts env w) as [[v|e] w']; [|reflexivity].
  unfold bind, lift, ret. destruct (iter v) as [accounts|e]; [|reflexivity].
  by destruct (mapM _ accounts).
Qed.

Lemma find_account_sound account_id accounts a :
  find_account account_id accounts = Ok a ->
  In a accounts /\ getitem a "id" = Ok (JStr account_id).
Proof.
  induction accounts as [|x accounts IH]; [discriminate|].
  cbn [find_account]. destruct (getitem x "id") as [i|e] eqn:Hi; [|discriminate].
  destruct (eq_str i account_id) eqn:Heq.
  - intros [= <-]. apply eq_str_true in Heq. subst i. split; [by left | exact Hi].
  - intros H. destruct (IH H) as [Hin Ha]. split; [by right | exact Ha].
Qed.

Lemma find_account_stops account_id pre a post :
  Forall (fun b => has_field "id" b /\ getitem b "id" <> Ok (JStr account_id)) pre ->
  getitem a "id" = Ok (JStr account_id) ->
  find_account account_id (pre ++ a :: post) = Ok a.
Proof.
  intros Hpre Ha. induction Hpre as [|x pre [[i Hi] Hx] _ IH].
  - cbn. rewrite Ha. cbn. by rewrite String.eqb_refl.
  - cbn [app find_account]. rewrite Hi.
    destruct (eq_str i account_id) eqn:Heq; [|exact IH].
    apply eq_str_true in Heq. subst i. contradiction.
Qed.

Lemma mapM_first_error k (pre post : list json) a e :
  Forall (has_field k) pre ->
  getitem a k = Err e ->
  mapM (fun v => getitem v k) (pre ++ a :: post) = Err e.
Proof.
  intros Hpre Ha. induction Hpre as [|x pre [i Hi] _ IH].
  - cbn. by rewrite Ha.
  - cbn [app mapM]. by rewrite Hi, IH.
Qed.

Lemma mapM_ok k (l ys : list json) :
  mapM (fun v => getitem v k) l = Ok ys ->
  Forall (has_field k) l /\ ys = map (field k) l.
Proof.
  revert ys. induction l as [|x l IH]; intros ys.
  - intros [= <-]. by split.
  - cbn [mapM]. destruct (getitem x k) as [i|e] eqn:Hi; [|discriminate].
    destruct (mapM _ l) as [zs|e]; [|discriminate].
    intros [= <-]. destruct (IH zs eq_refl) as [Hall ->].
    split; [constructor; [by exists i | exact Hall]|].
    cbn [map]. f_equal. unfold field. by rewrite Hi.
Qed.

Lemma filter_orders_first_error symbol (pre post : list json) o e :
  Forall (has_field "symbol") pre ->
  getitem o "symbol" = Err e ->
  filter_orders symbol (pre ++ o :: post) = Err e.
Proof.
  intros Hpre Ho. induction Hpre as [|x pre [s Hs] _ IH].
  - cbn. by rewrite Ho.
  - cbn [app filter_orders]. by rewrite Hs, IH.
Qed.

(** X15. Whatever the service returns as the account list, an account that
    [get_account] returns is an element of it and has exactly [account_id]
    as its [id]: an account whose [id] is not a string equal to the argument
    is never returned. *)
Theorem get_account_returns_only_a_match
    (env : Env) (account_id : string) (a : json) (w w' : World) :
  get_account env account_id w = (Ok a, w') ->
  getitem a "id" = Ok (JStr account_id) /\
  exists v accounts,
    get_accounts env w = (Ok v, w') /\ iter v = Ok accounts /\ In a accounts.
Proof.
  rewrite get_account_unfold.
  destruct (get_accounts env w) as [[v|e] w1]; [|discriminate].
  destruct (iter v) as [accounts|e] eqn:Hiter; [|discriminate].
  intros [= Hfind <-]. destruct (find_account_sound _ _ _ Hfind) as [Hin Ha].
  split; [exact Ha|]. by exists v, accounts.
Qed.

Lemma get_account_returns_only_a_match_witness :
  let env := Fixture.env Fixture.accepted Fixture.table in
  let a := Fixture.account "non-reg-3" "ca_non_registered" in
  get_account env "non-reg-3" Fixture.world = (Ok a, snd (get_accounts env Fixture.world)) /\
  getitem a "id" = Ok (JStr "non-reg-3") /\
  In a Fixture.accounts.
Proof.
  intros env a.
  assert (Hget : get_account env "non-reg-3" Fixture.world
                 = (Ok a, snd (get_accounts env Fixture.world))) by reflexivity.
  split; [exact Hget|].
  destruct (get_account_returns_only_a_match env "non-reg-3" a Fixture.world
              (snd (get_accounts env Fixture.world)) Hget) as [Hid _].
  split; [exact Hid|]. right; right; left; reflexivity.
Defined.

(** X16. [get_account] returns at the first match and reads no account past
    it: when the accounts before the match have an [id], none equal to
    [account_id], the match is returned whatever follows it in the list, be
    it an account without an [id]. *)
Theorem get_account_stops_at_first_match
    (env : Env) (account_id : string) (pre post : list json) (a : json) (w w' : World) :
  get_accounts env w = (Ok (JArr (pre ++ a :: post)), w') ->
  Forall (fun b => has_field "id" b /\ getitem b "id" <> Ok (JStr account_id)) pre ->
  getitem a "id" = Ok (JStr account_id) ->
  get_account env account_id w = (Ok a, w').
Proof.
  intros Hget Hpre Ha. rewrite get_account_unfold, Hget. cbn [iter].
  by rewrite (find_account_stops account_id pre a post Hpre Ha).
Qed.

Lemma get_account_stops_at_first_match_witness :
  let env := Cases.always (Cases.results_of Cases.ragged_accounts) in
  fst (get_account env "tfsa-1" Fixture.world) = Ok (Fixture.account "tfsa-1" "ca_tfsa").
Proof.
  intros env.
  rewrite (get_account_stops_at_first_match env "tfsa-1" []
             [JObj [("object", JStr "account")];
              Fixture.account "non-reg-3" "ca_non_registered"]
             (Fixture.account "tfsa-1" "ca_tfsa")
             Fixture.world (snd (get_accounts env Fixture.world)));
    [reflexivity | reflexivity | constructor | reflexivity].
Defined.

(** X17. [get_account_ids] reads the [id] of every account: when one account
    of the list cannot give it, the ones before it being well formed, the
    call raises what reading it raises, [KeyError("id")] for an object
    without the field, and returns no partial list. *)
Theorem get_account_ids_raises_on_missing_id
    (env : Env) (pre post : list json) (a : json) (e : exn) (w w' : World) :
  get_accounts env w = (Ok (JArr (pre ++ a :: post)), w') ->
  Forall (has_field "id") pre ->
  getitem a "id" = Err e ->
  get_account_ids env w = (Err e, w').
Proof.
  intros Hget Hpre Ha. rewrite get_account_ids_unfold, Hget. cbn [iter].
  by rewrite (mapM_first_error "id" pre post a e Hpre Ha).
Qed.

Lemma get_account_ids_raises_on_missing_id_witness :
  let env := Cases.always (Cases.results_of Cases.ragged_accounts) in
  fst (get_account_ids env Fixture.world) = Err (KeyError "id").
Proof.
  intros env.
  rewrite (get_account_ids_raises_on_missing_id env
             [Fixture.account "tfsa-1" "ca_tfsa"]
             [Fixture.account "non-reg-3" "ca_non_registered"]
             (JObj [("object", JStr "account")]) (KeyError "id")
             Fixture.world (snd (get_accounts env Fixture.world)));
    [reflexivity | reflexivity | repeat constructor; eexists; reflexivity | reflexivity].
Defined.

(** X18. Every id [get_account_ids] returns that is a string is accepted by
    [get_account] on the same reply: it returns an account with that [id]
    and does not raise the [NameError] of the unknown account. *)
Theorem get_account_ids_accepted_by_get_account
    (env : Env) (ids : list json) (s : string) (w w' : World) :
  get_account_ids env w = (Ok (JArr ids), w') ->
  In (JStr s) ids ->
  exists a, get_account env s w = (Ok a, w') /\ getitem a "id" = Ok (JStr s).
Proof.
  rewrite get_account_ids_unfold, get_account_unfold.
  destruct (get_accounts env w) as [[v|e] w1]; [|discriminate].
  destruct (iter v) as [accounts|e]; [|discriminate].
  destruct (mapM _ accounts) as [ys|e] eqn:Hmap; [|discriminate].
  intros [= <- <-] Hin.
  destruct (mapM_ok "id" accounts ys Hmap) as [Hall ->].
  apply in_map_iff in Hin. destruct Hin as (x & Hx & Hinx).
  assert (Hid : getitem x "id" = Ok (JStr s)).
  { rewrite Forall_forall in Hall. destruct (Hall x) as [i Hi].
    - by apply list_elem_of_In.
    - unfold field in Hx. rewrite Hi in Hx. by subst i. }
  destruct (find_account_first s accounts Hall) as (pre & a & post & _ & Ha & _ & Hfind).
  { by exists x. }
  exists a. by rewrite Hfind.
Qed.

Lemma get_account_ids_accepted_by_get_account_witness :
  let env := Fixture.env Fixture.accepted Fixture.table in
  exists a,
    get_account env "rrsp-2" Fixture.world = (Ok a, snd (get_account_ids env Fixture.world)) /\
    getitem a "id" = Ok (JStr "rrsp-2").
Proof.
  intros env.
  apply (get_account_ids_accepted_by_get_account env
           [JStr "tfsa-1"; JStr "rrsp-2"; JStr "non-reg-3"] "rrsp-2" Fixture.world).
  - reflexivity.
  - right; left; reflexivity.
Defined.

(** X19. With a symbol, [get_orders] reads the [symbol] of every order: when
    one order of the reply cannot give it, the ones before it being well
    formed, the call raises what reading it raises, [KeyError("symbol")]
    for an object without the field, though the same reply read without a
    symbol is returned whole. *)
Theorem get_orders_raises_on_missing_symbol
    (env : Env) (symbol : string) (pre post : list json) (o : json) (e : exn)
    (res : Response) (b : json) (w : World) :
  transport env (wire w) (get_request w "orders") = Ok res ->
  body res = Some b ->
  getitem b "results" = Ok (JArr (pre ++ o :: post)) ->
  Forall (has_field "symbol") pre ->
  getitem o "symbol" = Err e ->
  symbol <> "" ->
  get_orders env (Some symbol) w = (Err e, sent w (get_request w "orders")) /\
  get_orders env None w
    = (Ok (JArr (pre ++ o :: post)), sent w (get_request w "orders")).
Proof.
  intros Hres Hb Hresults Hpre Ho Hsymbol. split.
  - unfold get_orders. cbn [truthy_opt]. apply truthy_true in Hsymbol. rewrite Hsymbol.
    unfold bind, get, request, lift, ret, json_of. fold (get_request w "orders").
    rewrite Hres, Hb, Hresults. cbn [iter default]. unfold id.
    by rewrite (filter_orders_first_error symbol pre post o e Hpre Ho).
  - rewrite (get_orders_unfiltered env None w res b eq_refl Hres Hb).
    by rewrite Hresults.
Qed.

Lemma get_orders_raises_on_missing_symbol_witness :
  let env := Cases.always (Cases.results_of Cases.ragged_orders) in
  fst (get_orders env (Some "SHOP") Fixture.world) = Err (KeyError "symbol") /\
  fst (get_orders env None Fixture.world) = Ok (JArr Cases.ragged_orders).
Proof.
  intros env.
  destruct (get_orders_raises_on_missing_symbol env "SHOP"
              [Fixture.order "order-1" "AC"] [Fixture.order "order-3" "AC"]
              (JObj [("order_id", JStr "order-2")]) (KeyError "symbol")
              (Cases.results_of Cases.ragged_orders)
              (JObj [("results", JArr Cases.ragged_orders)]) Fixture.world)
    as [Hsym Hall];
    [ reflexivity | reflexivity | reflexivity
    | repeat constructor; eexists; reflexivity | reflexivity | discriminate |].
  split; [by rewrite Hsym | by rewrite Hall].
Defined.

(** X20. When the body [b] of the reply does not carry the [error]
    ["Record not found"], [get_account_history] returns exactly
    [b["results"]]: another error body, which has no such field, makes it
    raise [KeyError("results")], and a body that is not an object makes it
    raise [TypeError]. *)
Theorem get_account_history_without_record_error
    (env : Env) (account_id time : string) (res : Response) (b : json) (w : World) :
  transport env (wire w)
    (get_request w ("account/history/" +:+ time +:+ "?account_id=" +:+ account_id))
    = Ok res ->
  body res = Some b ->
  field_is "error" "Record not found" b = false ->
  get_account_history env account_id time w
    = (getitem b "results",
       sent w (get_request w
                 ("account/history/" +:+ time +:+ "?account_id=" +:+ account_id))).
Proof.
  intros Hres Hb. unfold get_account_history, bind, get, request, lift, raise, json_of.
  fold (get_request w ("account/history/" +:+ time +:+ "?account_id=" +:+ account_id)).
  rewrite Hres, Hb. unfold field_is, sent.
  destruct b as [| | | | s|items|fields]; cbn [contains getitem]; try done.
  - intros _. by destruct (is_substring "error" s).
  - intros _. by destruct (existsb _ items).
  - destruct (assoc "error" fields) as [x|] eqn:He.
    + rewrite bool_decide_eq_true_2 by eauto.
      intros ->. by destruct (assoc "results" fields).
    + rewrite bool_decide_eq_false_2 by (intros [? [=]]).
      intros _. by destruct (assoc "results" fields).
Qed.

Lemma get_account_history_without_record_error_witness :
  let env := Cases.always (Fixture.reply 401 ∅ (Some Cases.expired)) in
  fst (get_account_history env "tfsa-1" "1w" Fixture.world) = Err (KeyError "results").
Proof.
  intros env.
  rewrite (get_account_history_without_record_error env "tfsa-1" "1w"
             (Fixture.reply 401 ∅ (Some Cases.expired)) Cases.expired Fixture.world);
    reflexivity.
Defined.

(** *** Placing an order *)

